(** * turbo_chopper.py: chopping one HTML export into DITA topics

    A shallow embedding of [src/turbo_chopper.py] and the properties of its
    heading normalisation, boundary segmentation and topic construction.

    The script drives two third-party libraries.  Their behaviour is modelled
    here as far as the script observes it:

    - BeautifulSoup: the parse tree ([PageElement]), document order
      ([descendants], [next_elements]), [find_all], [.string], [.children],
      [.name], [new_tag], [append] and the [.string] setter;
    - python-slugify: an arbitrary function [slugify] on text (a section
      variable), of which only whitespace insensitivity is ever assumed.

    Text is a [string] whose characters stand for code points below 256. *)

From Stdlib Require Import ZArith Lia Ascii String DecimalString DecimalFacts DecimalNat.
From stdpp Require Import gmap strings list fin_maps sorting.

(** ** Python [str] methods used by the script *)

Module Py.

(** [str.isspace] on one code point (restricted to code points < 256):
    TAB, LF, VT, FF, CR, FS, GS, RS, US, SPACE, NEL and NBSP. *)
Definition isspace_char (c : ascii) : bool :=
  let n := nat_of_ascii c in
  ((9 <=? n) && (n <=? 13)) || ((28 <=? n) && (n <=? 32))
  || (n =? 133) || (n =? 160).

(** [s.isspace()]: every character is whitespace and there is at least one. *)
Fixpoint all_space (s : string) : bool :=
  match s with
  | EmptyString => true
  | String c r => isspace_char c && all_space r
  end.

Definition isspace (s : string) : bool :=
  match s with
  | EmptyString => false
  | String _ _ => all_space s
  end.

Fixpoint lstrip (s : string) : string :=
  match s with
  | EmptyString => EmptyString
  | String c r => if isspace_char c then lstrip r else s
  end.

Fixpoint rstrip (s : string) : string :=
  match s with
  | EmptyString => EmptyString
  | String c r =>
      match rstrip r with
      | EmptyString => if isspace_char c then EmptyString else String c EmptyString
      | r' => String c r'
      end
  end.

(** [s.strip()]: leading whitespace is dropped first, then trailing. *)
Definition strip (s : string) : string := rstrip (lstrip s).

(** [sep.join(l)]. *)
Definition join (sep : string) (l : list string) : string := String.concat sep l.

(** ['{:05d}'.format(n)] for a non-negative [n]: the decimal digits of [n],
    padded on the left with zeros up to width 5. *)
Fixpoint zeros (k : nat) : string :=
  match k with
  | O => EmptyString
  | S k' => String "0"%char (zeros k')
  end.

Definition decimal (n : nat) : string := NilZero.string_of_uint (Nat.to_uint n).

Definition format_05d (n : nat) : string :=
  let d := decimal n in zeros (5 - String.length d) +:+ d.

(** [int(s)] for a string of decimal digits. *)
Definition int (s : string) : option nat :=
  option_map Nat.of_uint (NilZero.uint_of_string s).

(** What a run of the script can end in: a normal return, a call of
    [exit(code)] after printing a message, or an uncaught exception. *)
Inductive exn := IndexError | TypeError | AttributeError | OSError.

Inductive outcome (A : Type) : Type :=
| Returned (a : A)
| Exited (code : Z) (printed : string)
| Raised (e : exn).
Arguments Returned {A} a.
Arguments Exited {A} code printed.
Arguments Raised {A} e.

Definition bind {A B} (m : outcome A) (k : A -> outcome B) : outcome B :=
  match m with
  | Returned a => k a
  | Exited c msg => Exited c msg
  | Raised e => Raised e
  end.

(** [l[i]] on a Python list. *)
Definition index {A} (l : list A) (i : nat) : outcome A :=
  match l !! i with
  | Some x => Returned x
  | None => Raised IndexError
  end.

End Py.

#[global] Instance outcome_bind : MBind Py.outcome := fun A B k m => Py.bind m k.
#[global] Instance outcome_ret : MRet Py.outcome := fun A a => Py.Returned a.

(** ** The BeautifulSoup parse tree *)

#[local] Set Warnings "-register-all".

(** The classes of string nodes.  [Comment] and the others are subclasses of
    [NavigableString]; the script compares exact types. *)
Inductive string_class :=
| NavigableString | Comment | CData | ProcessingInstruction | Declaration | Doctype.

#[global] Instance string_class_eq_dec : EqDecision string_class.
Proof. solve_decision. Defined.

Inductive attr_value :=
| AttrStr (s : string)
| AttrList (l : list string).

Inductive PageElement :=
| Tag (name : string) (attrs : list (string * attr_value)) (contents : list PageElement)
| Str (cls : string_class) (text : string).

(** A [BeautifulSoup] object, seen through its top-level [contents]. *)
Definition BeautifulSoup := list PageElement.

Inductive py_type := TagT | StrT (cls : string_class).

#[global] Instance py_type_eq_dec : EqDecision py_type.
Proof. solve_decision. Defined.

Definition type (e : PageElement) : py_type :=
  match e with
  | Tag _ _ _ => TagT
  | Str cls _ => StrT cls
  end.

Definition is_Tag (e : PageElement) : bool :=
  match e with Tag _ _ _ => true | Str _ _ => false end.

Definition is_Comment (e : PageElement) : bool :=
  match e with Str Comment _ => true | _ => false end.

(** [e.name]: the tag name, [None] for a string node. *)
Definition name (e : PageElement) : option string :=
  match e with
  | Tag n _ _ => Some n
  | Str _ _ => None
  end.

Definition attrs (e : PageElement) : list (string * attr_value) :=
  match e with
  | Tag _ a _ => a
  | Str _ _ => []
  end.

(** [e.children] (the empty iteration on a string node). *)
Definition children (e : PageElement) : list PageElement :=
  match e with
  | Tag _ _ cs => cs
  | Str _ _ => []
  end.

(** [e.string]: a string node is its own string; a tag with exactly one child
    has the string of that child; any other tag has none. *)
Fixpoint string_of (e : PageElement) : option string :=
  match e with
  | Str _ s => Some s
  | Tag _ _ [c] => string_of c
  | Tag _ _ _ => None
  end.

(** [e] followed by everything below it, in document order. *)
Fixpoint self_and_descendants (e : PageElement) : list PageElement :=
  match e with
  | Tag _ _ cs => e :: flat_map self_and_descendants cs
  | Str _ _ => [e]
  end.

(** [soup.descendants]: every node of the document, in document order.  The
    position of a node in this list identifies the node. *)
Definition descendants (soup : BeautifulSoup) : list PageElement :=
  flat_map self_and_descendants soup.

(** [e.get_text()]: all text below [e], concatenated. *)
Fixpoint get_text (e : PageElement) : string :=
  match e with
  | Str NavigableString s => s
  | Str CData s => s
  | Str _ _ => EmptyString
  | Tag _ _ cs => String.concat EmptyString (map get_text cs)
  end.

(** *** Elements as positions in document order

    The script holds references to elements of the one parse tree and renames
    some of them in place.  A reference is modelled as the position of the
    element in [descendants]; renaming never moves an element. *)

Definition ref := nat.

(** An element as the script holds it: its position and what is there. *)
Definition handle : Type := ref * PageElement.

(** [soup.find_all(tag_name)]: the elements of that name, in document order. *)
Fixpoint find_all_from (tag_name : string) (pos : nat) (l : list PageElement) : list handle :=
  match l with
  | [] => []
  | e :: rest =>
      if decide (name e = Some tag_name)
      then (pos, e) :: find_all_from tag_name (S pos) rest
      else find_all_from tag_name (S pos) rest
  end.

Definition find_all (tag_name : string) (soup : BeautifulSoup) : list handle :=
  find_all_from tag_name 0 (descendants soup).

(** [e.find(tag_name)] below one element, as [the_html.body] does. *)
Definition find (tag_name : string) (e : PageElement) : option PageElement :=
  head (filter (fun d => name d = Some tag_name) (flat_map self_and_descendants (children e))).

(** [r.next_elements]: every node after [r] in document order, to the end of
    the document; it starts below [r] itself when [r] has children. *)
Definition next_elements (soup : BeautifulSoup) (r : ref) : list PageElement :=
  drop (S r) (descendants soup).

(** Renaming by position: the element at position [k] (counted from [base])
    gets the name [f k old_name]. *)
Fixpoint rename_at (f : nat -> string -> string) (base : nat) (e : PageElement) : PageElement :=
  match e with
  | Tag n a cs =>
      Tag (f base n) a
        ((fix go (b : nat) (l : list PageElement) : list PageElement :=
            match l with
            | [] => []
            | c :: r => rename_at f b c :: go (b + length (self_and_descendants c)) r
            end) (S base) cs)
  | Str _ _ => e
  end.

Fixpoint rename_list (f : nat -> string -> string) (base : nat) (l : list PageElement)
  : list PageElement :=
  match l with
  | [] => []
  | c :: r => rename_at f base c :: rename_list f (base + length (self_and_descendants c)) r
  end.

(** [r.name = new_name]. *)
Definition set_name (new_name : string) (r : ref) (soup : BeautifulSoup) : BeautifulSoup :=
  rename_list (fun k old => if decide (k = r) then new_name else old) 0 soup.

(** The promotion loop of [main]. *)
Definition promote_these : list string := ["h2"; "h3"; "h4"; "h5"].

Definition promote_one (soup : BeautifulSoup) (promotion_needed : string) : BeautifulSoup :=
  let to_promote := find_all promotion_needed soup in
  foldl (fun sp (promote_this : handle) => set_name "h1" promote_this.1 sp) soup to_promote.

Definition promote (soup : BeautifulSoup) : BeautifulSoup :=
  foldl promote_one soup promote_these.


(** *** Building a tree: [new_tag], [append], attribute and string assignment

    Inside an output tree an element is referred to by its path of child
    indices from the top, so that a tag stays reachable (and appendable to)
    after it was put into the tree. *)

Definition path := list nat.

Definition new_tag (tag_name : string) : PageElement := Tag tag_name [] [].

(** [tag.string = s] on a tag: the contents become the one string node. *)
Definition set_string (tag : PageElement) (s : string) : PageElement :=
  match tag with
  | Tag n a _ => Tag n a [Str NavigableString s]
  | Str _ _ => tag
  end.

(** [d[key] = v] on the attribute dictionary of a tag. *)
Fixpoint assoc_set (key : string) (v : attr_value) (d : list (string * attr_value))
  : list (string * attr_value) :=
  match d with
  | [] => [(key, v)]
  | (k, w) :: rest => if decide (k = key) then (k, v) :: rest else (k, w) :: assoc_set key v rest
  end.

(** Apply [f] to the element at [p]. *)
Fixpoint update_at (f : PageElement -> PageElement) (p : path) (l : list PageElement)
  : list PageElement :=
  match p with
  | [] => l
  | [i] => match l !! i with Some e => <[i := f e]> l | None => l end
  | i :: p' =>
      match l !! i with
      | Some (Tag n a cs) => <[i := Tag n a (update_at f p' cs)]> l
      | _ => l
      end
  end.

Fixpoint element_at (p : path) (l : list PageElement) : option PageElement :=
  match p with
  | [] => None
  | [i] => l !! i
  | i :: p' =>
      match l !! i with
      | Some (Tag _ _ cs) => element_at p' cs
      | _ => None
      end
  end.

(** [tag[key] = v] for the tag at [p]. *)
Definition set_attr (p : path) (key : string) (v : string) (soup : BeautifulSoup) : BeautifulSoup :=
  update_at (fun e => match e with
                      | Tag n a cs => Tag n (assoc_set key (AttrStr v) a) cs
                      | Str _ _ => e
                      end) p soup.

(** [parent.append(child)] for the tag at [parent]: the tree afterwards and
    the path under which [child] now lives. *)
Definition append (parent : path) (child : PageElement) (soup : BeautifulSoup)
  : BeautifulSoup * path :=
  (update_at (fun e => match e with
                       | Tag n a cs => Tag n a (cs ++ [child])
                       | Str _ _ => e
                       end) parent soup,
   parent ++ [length (from_option children [] (element_at parent soup))]).

(** ** The script *)

Definition DUPLICATES_TRIGGERS_ERROR : bool := false.
Definition VALID_ELEMENTS : list string := ["p"].
Definition XMLNS_DITAARCH : string := "http://dita.oasis-open.org/architecture/2005/".
Definition EXTN_XML : string := ".xml".

(** [x in l] for a name that may be [None] and a list of strings. *)
Definition name_in (x : option string) (l : list string) : bool :=
  match x with
  | Some n => bool_decide (n ∈ l)
  | None => false
  end.

(** The tallies are keyed by [.name], which is [None] for string nodes. *)
Abbreviation tag_dict := (gmap (option string) nat).

Record ElementStatisticsClass := {
  element_count : nat;
  parsed_tag_count : nat;
  invalid_tag_count : nat;
  valid_tag_dict : tag_dict;
  invalid_tag_dict : tag_dict
}.

(** [the_stats = ElementStatisticsClass()]. *)
Definition the_stats_initial : ElementStatisticsClass :=
  {| element_count := 0; parsed_tag_count := 0; invalid_tag_count := 0;
     valid_tag_dict := ∅; invalid_tag_dict := ∅ |}.

(** How often [key] was counted; an absent key was never counted. *)
Definition tally (d : tag_dict) (key : option string) : nat := default 0 (d !! key).

Module ChoppedH1.

Record t := {
  h1_tag : handle;
  (** [self.string] *)
  text : string;
  slug : string;
  index : nat;
  soup : BeautifulSoup;
  body_tag : path
}.

(** [_count_this_tag(stats_dict, the_element)]. *)
Definition _count_this_tag (stats_dict : tag_dict) (the_element : PageElement) : tag_dict :=
  match stats_dict !! name the_element with
  | Some n => <[name the_element := n + 1]> stats_dict
  | None => <[name the_element := 1]> stats_dict
  end.

(** The loop over [this_element.children] in the paragraph branch. *)
Fixpoint collect_children (cs : list PageElement) (string_list : list string)
    (valid : tag_dict) : list string * tag_dict :=
  match cs with
  | [] => (string_list, valid)
  | this_child :: rest =>
      match string_of this_child with
      | Some s =>
          collect_children rest (string_list ++ [Py.strip s]) (_count_this_tag valid this_child)
      | None => collect_children rest string_list valid
      end
  end.

Section WithSlugify.
Variable slugify : string -> string.

(** [ChoppedH1(h1_tag, index)]. *)
Definition init (h1_tag : handle) (index : nat) : Py.outcome t :=
  match string_of h1_tag.2 with
  | None => Py.Raised Py.AttributeError
  | Some s =>
      let text := Py.strip s in
      let slug := slugify text in
      let soup := [Tag "topic" [] []] in
      let the_topic : path := [0] in
      let soup := set_attr the_topic "id" ("tbd__" +:+ Py.format_05d index) soup in
      let soup := set_attr the_topic "xmlns:ditaarch" XMLNS_DITAARCH soup in
      let title_tag := set_string (new_tag "title") text in
      let '(soup, _) := append the_topic title_tag soup in
      let shortdesc_tag := set_string (new_tag "shortdesc") "" in
      let '(soup, _) := append the_topic shortdesc_tag soup in
      let '(soup, prolog_tag) := append the_topic (new_tag "prolog") soup in
      let author_tag := set_string (new_tag "author") "TurboChopper!" in
      let '(soup, _) := append prolog_tag author_tag soup in
      let '(soup, body_tag) := append the_topic (new_tag "body") soup in
      Py.Returned {| h1_tag := h1_tag; text := text; slug := slug; index := index;
                     soup := soup; body_tag := body_tag |}
  end.
End WithSlugify.

(** [self.add_this_element(this_element)], on the global [the_stats]. *)
Definition add_this_element (the_stats : ElementStatisticsClass) (self : t)
    (this_element : PageElement) : Py.outcome (ElementStatisticsClass * t) :=
  let count := element_count the_stats + 1 in
  if negb (name_in (name this_element) VALID_ELEMENTS) then
    Py.Returned
      ({| element_count := count;
          parsed_tag_count := parsed_tag_count the_stats;
          invalid_tag_count := invalid_tag_count the_stats + 1;
          valid_tag_dict := valid_tag_dict the_stats;
          invalid_tag_dict := _count_this_tag (invalid_tag_dict the_stats) this_element |},
       self)
  else
    let parsed := parsed_tag_count the_stats + 1 in
    let valid := _count_this_tag (valid_tag_dict the_stats) this_element in
    if decide (name this_element = Some "p") then
      let add_this_tag := new_tag "p" in
      let '(string_list, valid) := collect_children (children this_element) [] valid in
      let add_this_tag := set_string add_this_tag (Py.join " " string_list) in
      Py.Returned
        ({| element_count := count;
            parsed_tag_count := parsed;
            invalid_tag_count := invalid_tag_count the_stats;
            valid_tag_dict := valid;
            invalid_tag_dict := invalid_tag_dict the_stats |},
         {| h1_tag := h1_tag self; text := text self; slug := slug self;
            index := index self;
            soup := (append (body_tag self) add_this_tag (soup self)).1;
            body_tag := body_tag self |})
    else
      Py.Exited (-1) "Unexpected tag received!".

(** [self.write_to_file(output_path)]: the file name below [output_path]
    and the tree that is serialised into it. *)
Definition write_to_file (self : t) : string * BeautifulSoup :=
  (slug self +:+ EXTN_XML, soup self).

End ChoppedH1.

Section Main.
Variable slugify : string -> string.

(** The sanity check on [list(soup)]. *)
Definition structure_check (soup_as_a_list : list PageElement)
  : Py.outcome (PageElement * PageElement) :=
  e0 ← Py.index soup_as_a_list 0;
  e1 ← Py.index soup_as_a_list 1;
  let type_tests := [bool_decide (type e0 = StrT Comment); bool_decide (type e1 = TagT)] in
  if negb (forallb id type_tests) then Py.Exited (-1) "Unexpected xml structure!"
  else
    the_comment ← Py.index soup_as_a_list 0;
    the_html ← Py.index soup_as_a_list 1;
    Py.Returned (the_comment, the_html).

(** [len(the_html.body)], printed by [main]. *)
Definition body_length (the_html : PageElement) : Py.outcome nat :=
  match find "body" the_html with
  | Some b => Py.Returned (length (children b))
  | None => Py.Raised Py.TypeError
  end.

(** The first loop over [the_h1s]. *)
Fixpoint collect_h1_strings (the_h1s : list handle) (h1_strings : list string) : list string :=
  match the_h1s with
  | [] => h1_strings
  | this_h1 :: rest =>
      match string_of this_h1.2 with
      | None => collect_h1_strings rest h1_strings
      | Some s =>
          if negb (Py.isspace s)
          then collect_h1_strings rest (h1_strings ++ [Py.strip s])
          else collect_h1_strings rest h1_strings
      end
  end.

(** The loop over [this_h1.next_elements]. *)
Fixpoint walk (elements : list PageElement) (the_stats : ElementStatisticsClass)
    (chopped_thing : ChoppedH1.t) : Py.outcome (ElementStatisticsClass * ChoppedH1.t) :=
  match elements with
  | [] => Py.Returned (the_stats, chopped_thing)
  | this_element :: rest =>
      if negb (bool_decide (type this_element = TagT)) then walk rest the_stats chopped_thing
      else if decide (name this_element = Some "h1") then Py.Returned (the_stats, chopped_thing)
      else
        '(the_stats, chopped_thing) ←
           ChoppedH1.add_this_element the_stats chopped_thing this_element;
        walk rest the_stats chopped_thing
  end.

(** The second loop over [the_h1s]. *)
Fixpoint chop (soup : BeautifulSoup) (doc_title : string) (the_h1s : list handle)
    (h1_index : nat) (the_stats : ElementStatisticsClass) (chopped_list : list ChoppedH1.t)
  : Py.outcome (nat * ElementStatisticsClass * list ChoppedH1.t) :=
  match the_h1s with
  | [] => Py.Returned (h1_index, the_stats, chopped_list)
  | this_h1 :: rest =>
      match string_of this_h1.2 with
      | None => chop soup doc_title rest h1_index the_stats chopped_list
      | Some s =>
          let the_tests := [Py.isspace s; bool_decide (slugify s = doc_title)] in
          if existsb id the_tests then chop soup doc_title rest h1_index the_stats chopped_list
          else
            let h1_index := h1_index + 1 in
            chopped_thing ← ChoppedH1.init slugify this_h1 h1_index;
            '(the_stats, chopped_thing) ←
               walk (next_elements soup this_h1.1) the_stats chopped_thing;
            chop soup doc_title rest h1_index the_stats (chopped_list ++ [chopped_thing])
      end
  end.

Record run := {
  doc_title : string;
  chopped_list : list ChoppedH1.t;
  the_stats : ElementStatisticsClass;
  (** the files written into the output folder, in the order of writing *)
  written : list (string * BeautifulSoup)
}.

(** [main()], from the parsed document on; console output other than the
    messages of the fatal exits is left out.  The file system is left out
    here as well: [written] lists what the run sets out to write, and
    [main_on_disk] below is the run with [os.makedirs] and [open]. *)
Definition main (soup : BeautifulSoup) : Py.outcome run :=
  let soup_as_a_list := soup in
  '(the_comment, the_html) ← structure_check soup_as_a_list;
  _ ← body_length the_html;
  let soup := promote soup in
  let the_h1s := find_all "h1" soup in
  let h1_strings := collect_h1_strings the_h1s [] in
  if DUPLICATES_TRIGGERS_ERROR && negb (bool_decide (NoDup h1_strings))
  then Py.Exited (-1) "Duplicated text in h1 tags!"
  else
    first ← Py.index h1_strings 0;
    let doc_title := slugify first in
    '(_, the_stats, chopped_list) ← chop soup doc_title the_h1s 0 the_stats_initial [];
    Py.Returned {| doc_title := doc_title; chopped_list := chopped_list;
                   the_stats := the_stats;
                   written := map ChoppedH1.write_to_file chopped_list |}.

End Main.

(** ** The operations as the specification words them

    These are compared with the embedding of the code in the theorems. *)

(** Rewriting tag names throughout a tree: attributes, contents and the
    position of every node stay as they are. *)
Fixpoint retag (h : string -> string) (e : PageElement) : PageElement :=
  match e with
  | Tag n a cs => Tag (h n) a (map (retag h) cs)
  | Str _ _ => e
  end.

(** One pass of the promotion loop, on names. *)
Definition promote_if (promotion_needed : string) (n : string) : string :=
  if bool_decide (n = promotion_needed) then "h1" else n.

(** A subordinate heading (second to fifth level) becomes a top-level one. *)
Definition promote_name (n : string) : string :=
  if bool_decide (n ∈ promote_these) then "h1" else n.

(** The fixed shape of a topic document: [body] is what the body holds. *)
Definition topic_tree (index : nat) (title : string) (body : list PageElement) : BeautifulSoup :=
  [Tag "topic"
     [("id", AttrStr ("tbd__" +:+ Py.format_05d index));
      ("xmlns:ditaarch", AttrStr "http://dita.oasis-open.org/architecture/2005/")]
     [Tag "title" [] [Str NavigableString title];
      Tag "shortdesc" [] [Str NavigableString ""];
      Tag "prolog" [] [Tag "author" [] [Str NavigableString "TurboChopper!"]];
      Tag "body" [] body]].

(** A topic under construction: its tree has the fixed shape around the
    body contents [body], and [body_tag] is the body of that tree. *)
Definition topic_shape (c : ChoppedH1.t) (body : list PageElement) : Prop :=
  ChoppedH1.soup c = topic_tree (ChoppedH1.index c) (ChoppedH1.text c) body
  /\ ChoppedH1.body_tag c = [0; 3].

(** The part of a topic that no element ever changes. *)
Definition same_topic (c c' : ChoppedH1.t) : Prop :=
  ChoppedH1.h1_tag c' = ChoppedH1.h1_tag c
  /\ ChoppedH1.text c' = ChoppedH1.text c
  /\ ChoppedH1.slug c' = ChoppedH1.slug c
  /\ ChoppedH1.index c' = ChoppedH1.index c
  /\ ChoppedH1.body_tag c' = ChoppedH1.body_tag c.

(** The children of a paragraph that have a [.string]: a string node (a
    comment too), or an element whose only child has a [.string]. *)
Definition contributing (cs : list PageElement) : list PageElement :=
  filter (fun c => is_Some (string_of c)) cs.

(** The trimmed [.string] of every child that has one, in child order. *)
Definition child_texts (cs : list PageElement) : list string :=
  omap (fun c => Py.strip <$> string_of c) cs.

(** The paragraph rebuilt from the children [cs]. *)
Definition rebuilt_paragraph (cs : list PageElement) : PageElement :=
  Tag "p" [] [Str NavigableString (Py.join " " (child_texts cs))].

(** How many elements of [l] are named [key]. *)
Definition count_named (key : option string) (l : list PageElement) : nat :=
  length (filter (fun c => name c = key) l).

(** The elements handed to [add_this_element], one after the other. *)
Fixpoint add_all (l : list PageElement) (the_stats : ElementStatisticsClass)
    (chopped_thing : ChoppedH1.t) : Py.outcome (ElementStatisticsClass * ChoppedH1.t) :=
  match l with
  | [] => Py.Returned (the_stats, chopped_thing)
  | e :: rest =>
      '(the_stats, chopped_thing) ← ChoppedH1.add_this_element the_stats chopped_thing e;
      add_all rest the_stats chopped_thing
  end.

(** The nodes of a traversal up to, and without, the first top-level heading. *)
Fixpoint until_h1 (l : list PageElement) : list PageElement :=
  match l with
  | [] => []
  | e :: rest => if decide (name e = Some "h1") then [] else e :: until_h1 rest
  end.

(** The span of the heading at position [r]: the elements met after it in
    document order, before the next top-level heading. *)
Definition span (soup : BeautifulSoup) (r : ref) : list PageElement :=
  filter is_Tag (until_h1 (next_elements soup r)).

(** The paragraphs rebuilt from the paragraph elements of a span. *)
Definition paragraphs (l : list PageElement) : list PageElement :=
  (fun e => rebuilt_paragraph (children e)) <$> filter (fun e => name e = Some "p") l.

(** A heading has text that is not whitespace only. *)
Definition non_blank (h : handle) : Prop :=
  exists s, string_of h.2 = Some s /\ Py.isspace s = false.

(** The slug of a heading, as the topic made from it is named. *)
Definition heading_slug (slugify : string -> string) (h : handle) : option string :=
  (fun s => slugify (Py.strip s)) <$> string_of h.2.

(** The acceptance filter of the second loop over the headings. *)
Definition accepted (slugify : string -> string) (doc_title : string) (h : handle) : bool :=
  match string_of h.2 with
  | Some s => negb (Py.isspace s) && negb (bool_decide (slugify s = doc_title))
  | None => false
  end.

(** The trimmed text of a heading if it is not blank. *)
Definition title_text (h : handle) : option string :=
  match string_of h.2 with
  | Some s => if Py.isspace s then None else Some (Py.strip s)
  | None => None
  end.

(** A finished topic of the document [soup]: made from a heading with text,
    named after it, of the fixed shape, its body the paragraphs of the span. *)
Definition topic_of (slugify : string -> string) (soup : BeautifulSoup) (c : ChoppedH1.t)
  : Prop :=
  exists s, string_of (ChoppedH1.h1_tag c).2 = Some s
            /\ ChoppedH1.text c = Py.strip s
            /\ ChoppedH1.slug c = slugify (Py.strip s)
            /\ topic_shape c (paragraphs (span soup (ChoppedH1.h1_tag c).1)).

(** The top-level headings that [main] iterates over. *)
Definition the_h1s (soup : BeautifulSoup) : list handle := find_all "h1" (promote soup).

(** The input has the shape of the expected export. *)
Definition well_shaped (soup : BeautifulSoup) : Prop :=
  exists c html rest, soup = c :: html :: rest /\ type c = StrT Comment /\ type html = TagT.

(** ** A stand-in for python-slugify

    Modelled from the spec: [slugify(text, separator="_")] is a third-party
    function.  Section 4.5 describes it: trim the text, lowercase it, replace
    each run of non-alphanumeric characters by one underscore, and strip
    leading and trailing underscores.  The theorems below hold for every
    [slugify]; this one serves the worked examples. *)
Module Slug.

Definition is_alnum (c : ascii) : bool :=
  let n := nat_of_ascii c in
  ((48 <=? n) && (n <=? 57)) || ((65 <=? n) && (n <=? 90)) || ((97 <=? n) && (n <=? 122)).

Definition lower (c : ascii) : ascii :=
  let n := nat_of_ascii c in
  if (65 <=? n) && (n <=? 90) then ascii_of_nat (n + 32) else c.

(** [started]: something was emitted already; [sep_due]: a run of other
    characters was seen since. *)
Fixpoint go (sep_due started : bool) (s : string) : string :=
  match s with
  | EmptyString => EmptyString
  | String c r =>
      if is_alnum c then
        let rest := String (lower c) (go false true r) in
        if sep_due then String "_"%char rest else rest
      else go started started r
  end.

Definition slugify (text : string) : string := go false false (Py.strip text).

End Slug.

(** ** The end of a run: the report and the output folder *)

(** A Python [dict] keeps its items in the order of their first insertion,
    and the report of [main] depends on that order.  Here a dictionary is the
    list of its items in that order, as [the_dict.items()] yields them. *)
Module Ordered.

Abbreviation dict := (list (option string * nat)).

(** [d[key]]; [None] stands for the [KeyError]. *)
Fixpoint get (d : dict) (key : option string) : option nat :=
  match d with
  | [] => None
  | (k, v) :: rest => if decide (k = key) then Some v else get rest key
  end.

(** [d[key] = value]: a key that is there keeps its place, a new key goes
    to the end. *)
Fixpoint set (d : dict) (key : option string) (value : nat) : dict :=
  match d with
  | [] => [(key, value)]
  | (k, v) :: rest =>
      if decide (k = key) then (k, value) :: rest else (k, v) :: set rest key value
  end.

(** [_count_this_tag(stats_dict, the_element)] on such a dictionary. *)
Definition _count_this_tag (stats_dict : dict) (the_element : PageElement) : dict :=
  match get stats_dict (name the_element) with
  | Some n => set stats_dict (name the_element) (n + 1)
  | None => set stats_dict (name the_element) 1
  end.

(** [sorted(items, key=lambda item: item[1], reverse=True)]: Python's sort is
    stable, also with [reverse], so an item goes in front of the items that
    follow it and do not have a greater count. *)
Fixpoint insert_item (x : option string * nat) (l : dict) : dict :=
  match l with
  | [] => [x]
  | y :: rest => if x.2 <? y.2 then y :: insert_item x rest else x :: l
  end.

Definition sorted_by_count (items : dict) : dict := foldr insert_item [] items.

(** [ElementStatisticsClass._order_tags_dict(the_dict)]. *)
Definition _order_tags_dict (the_dict : dict) : dict :=
  foldl (fun in_order (item : option string * nat) => set in_order item.1 item.2)
    [] (sorted_by_count the_dict).

End Ordered.

(** The sum of the counts of a tally. *)
Definition total (d : tag_dict) : nat := map_fold (fun _ n acc => n + acc) 0 d.

(** What one element handed to [add_this_element] does to the statistics. *)
Definition tally_element (st : ElementStatisticsClass) (e : PageElement)
  : ElementStatisticsClass :=
  if decide (name e = Some "p") then
    {| element_count := element_count st + 1;
       parsed_tag_count := parsed_tag_count st + 1;
       invalid_tag_count := invalid_tag_count st;
       valid_tag_dict :=
         foldl ChoppedH1._count_this_tag (ChoppedH1._count_this_tag (valid_tag_dict st) e)
           (contributing (children e));
       invalid_tag_dict := invalid_tag_dict st |}
  else
    {| element_count := element_count st + 1;
       parsed_tag_count := parsed_tag_count st;
       invalid_tag_count := invalid_tag_count st + 1;
       valid_tag_dict := valid_tag_dict st;
       invalid_tag_dict := ChoppedH1._count_this_tag (invalid_tag_dict st) e |}.

(** The elements a run hands to [add_this_element], in this order: the
    spans of the accepted headings. *)
Definition walked (slugify : string -> string) (soup : BeautifulSoup) (doc_title : string)
  : list PageElement :=
  flat_map (fun h : handle => span (promote soup) h.1)
    (filter (accepted slugify doc_title) (the_h1s soup)).

(** What the body of a topic holds. *)
Definition body (c : ChoppedH1.t) : list PageElement :=
  from_option children [] (element_at (ChoppedH1.body_tag c) (ChoppedH1.soup c)).

(** The output folder after the writing loop of [main]: [open(file, 'w')]
    creates the file or empties the one that is there. *)
Definition write_files (written : list (string * BeautifulSoup))
    (folder : gmap string BeautifulSoup) : gmap string BeautifulSoup :=
  foldl (fun files (w : string * BeautifulSoup) => <[w.1 := w.2]> files) folder written.


(** The children with a [.string] of the paragraphs among [l]. *)
Definition contributions (l : list PageElement) : list PageElement :=
  flat_map (fun e => contributing (children e)) (filter (fun e => name e = Some "p") l).

(** ** The paragraph text in the words of the specification

    "The text of each immediate child that carries direct text": a text node
    as a child, or an element that has a text node among its own children,
    with the text that lies directly in it. *)

Definition is_text_node (e : PageElement) : bool :=
  match e with
  | Str NavigableString _ | Str CData _ => true
  | _ => false
  end.

Definition carries_direct_text (c : PageElement) : bool :=
  match c with
  | Tag _ _ cs => existsb is_text_node cs
  | Str _ _ => is_text_node c
  end.

Definition direct_text (c : PageElement) : string :=
  match c with
  | Tag _ _ cs => String.concat EmptyString (get_text <$> filter is_text_node cs)
  | Str _ _ => get_text c
  end.

Definition direct_child_texts (cs : list PageElement) : list string :=
  (fun c => Py.strip (direct_text c)) <$> filter carries_direct_text cs.

(** ** The run on a file system

    [os.makedirs] and [open] (with the write that follows) succeed or raise an
    [OSError] as the file system decides: for the output folder by its name,
    for a file by its name and by what the run has written so far. *)

Record file_system := {
  makedirs_fails : string -> bool;
  write_fails : gmap string BeautifulSoup -> string -> bool
}.

(** [os.makedirs(output_folder, exist_ok=True)], the folder named after the
    document title. *)
Definition makedirs (fs : file_system) (doc_title : string) : Py.outcome unit :=
  if makedirs_fails fs doc_title then Py.Raised Py.OSError else Py.Returned tt.

(** [chopped_thing.write_to_file(output_folder)] on the files of the folder. *)
Definition write_to_file_on_disk (fs : file_system) (chopped_thing : ChoppedH1.t)
    (files : gmap string BeautifulSoup) : Py.outcome (gmap string BeautifulSoup) :=
  let output_file := (ChoppedH1.write_to_file chopped_thing).1 in
  if write_fails fs files output_file then Py.Raised Py.OSError
  else Py.Returned (<[output_file := (ChoppedH1.write_to_file chopped_thing).2]> files).

(** The writing loop of [main]. *)
Fixpoint write_loop (fs : file_system) (chopped_list : list ChoppedH1.t)
    (files : gmap string BeautifulSoup) : Py.outcome (gmap string BeautifulSoup) :=
  match chopped_list with
  | [] => Py.Returned files
  | chopped_thing :: rest =>
      files ← write_to_file_on_disk fs chopped_thing files;
      write_loop fs rest files
  end.

Section MainOnDisk.
Variable slugify : string -> string.
Variable fs : file_system.

(** [main()] with the file system: the output folder is made once the
    document title is known, and the files are written after all topics are
    built.  The result is the run and the files it has written. *)
Definition main_on_disk (soup : BeautifulSoup)
  : Py.outcome (run * gmap string BeautifulSoup) :=
  let soup_as_a_list := soup in
  '(the_comment, the_html) ← structure_check soup_as_a_list;
  _ ← body_length the_html;
  let soup := promote soup in
  let the_h1s := find_all "h1" soup in
  let h1_strings := collect_h1_strings the_h1s [] in
  if DUPLICATES_TRIGGERS_ERROR && negb (bool_decide (NoDup h1_strings))
  then Py.Exited (-1) "Duplicated text in h1 tags!"
  else
    first ← Py.index h1_strings 0;
    let doc_title := slugify first in
    _ ← makedirs fs doc_title;
    '(_, the_stats, chopped_list) ←
       chop slugify soup doc_title the_h1s 0 the_stats_initial [];
    files ← write_loop fs chopped_list ∅;
    Py.Returned ({| doc_title := doc_title; chopped_list := chopped_list;
                    the_stats := the_stats;
                    written := map ChoppedH1.write_to_file chopped_list |},
                 files).

End MainOnDisk.

(** ** Worked inputs *)

Module Examples.

(** The example of the spec, section 8, as the lxml parser delivers it. *)
Definition intro_setup : BeautifulSoup :=
  [Str Comment " export ";
   Tag "html" []
     [Tag "body" []
        [Tag "h1" [] [Str NavigableString "Intro"];
         Tag "p" [] [Str NavigableString "Hello "; Tag "b" [] [Str NavigableString "world"]];
         Tag "h2" [] [Str NavigableString "Setup"];
         Tag "p" [] [Str NavigableString "Step one."];
         Tag "h1" [] [Str NavigableString "Intro"]]]].

(** The "Setup" heading of that document, after promotion. *)
Definition setup_heading : handle := (9, Tag "h1" [] [Str NavigableString "Setup"]).

(** A topic under construction. *)
Definition setup_topic : ChoppedH1.t :=
  {| ChoppedH1.h1_tag := setup_heading; ChoppedH1.text := "Setup";
     ChoppedH1.slug := "setup"; ChoppedH1.index := 1;
     ChoppedH1.soup := topic_tree 1 "Setup" []; ChoppedH1.body_tag := [0; 3] |}.

(** A paragraph with a text, an element with one text, a line break
    (which has no text) and an element with mixed content. *)
Definition hello_paragraph : PageElement :=
  Tag "p" [("class", AttrList ["c1"])]
    [Str NavigableString " Hello ";
     Tag "b" [] [Str NavigableString "world"];
     Tag "br" [] [];
     Tag "span" [] [Str NavigableString "a"; Tag "i" [] [Str NavigableString "b"]];
     Str NavigableString "! "].

(** A heading with mixed content: it has text below it but no [.string]. *)
Definition mixed_heading : handle :=
  (5, Tag "h1" [] [Str NavigableString "Getting "; Tag "b" [] [Str NavigableString "started"]]).

Definition mixed_doc : BeautifulSoup :=
  [Str Comment " export ";
   Tag "html" []
     [Tag "body" []
        [Tag "h1" [] [Str NavigableString "Guide"];
         mixed_heading.2;
         Tag "p" [] [Str NavigableString "First steps."]]]].

(** A document that starts with the root element, without a comment. *)
Definition no_comment : BeautifulSoup :=
  [Tag "html" [] [Tag "body" [] [Tag "h1" [] [Str NavigableString "Intro"]]]].

End Examples.

Module MoreExamples.

(** A paragraph with a text, an element with mixed content, an element
    whose text lies one level deeper, and a comment. *)
Definition nested_paragraph : PageElement :=
  Tag "p" []
    [Str NavigableString "Hello ";
     Tag "span" [] [Str NavigableString "a"; Tag "i" [] [Str NavigableString "b"]];
     Tag "a" [] [Tag "b" [] [Str NavigableString "x"]];
     Str Comment " note "].

(** A document with two topics, with paragraphs and other elements. *)
Definition guide : BeautifulSoup :=
  [Str Comment " export ";
   Tag "html" []
     [Tag "body" []
        [Tag "h1" [] [Str NavigableString "Guide"];
         Tag "h2" [] [Str NavigableString "Install"];
         Tag "p" [] [Str NavigableString "Run "; Tag "b" [] [Str NavigableString "setup"]];
         Tag "ul" [] [Tag "li" [] [Tag "p" [] [Str NavigableString "One"]]];
         Tag "h1" [] [Str NavigableString "Usage"];
         Tag "div" [] [Tag "p" [] [Str NavigableString "Go."]]]]].

(** A file system that takes everything, and one that refuses long names. *)
Definition willing : file_system :=
  {| makedirs_fails := fun _ => false; write_fails := fun _ _ => false |}.

Definition short_names : file_system :=
  {| makedirs_fails := fun n => 8 <? String.length n;
     write_fails := fun _ n => 8 <? String.length n |}.

End MoreExamples.

(** * Properties *)

Example promote_ex :
  promote [Str Comment "c";
           Tag "html" [] [Tag "h3" [("id", AttrStr "a")] [Tag "h2" [] [Str NavigableString "x"]];
                          Tag "p" [] []; Tag "h6" [] []; Tag "h5" [] []]]
  = [Str Comment "c";
     Tag "html" [] [Tag "h1" [("id", AttrStr "a")] [Tag "h1" [] [Str NavigableString "x"]];
                    Tag "p" [] []; Tag "h6" [] []; Tag "h1" [] []]].
Proof. reflexivity. Qed.


(** ** Induction on parse trees *)

Lemma PageElement_rect' (P : PageElement -> Type) (Q : list PageElement -> Type) :
  (forall n a cs, Q cs -> P (Tag n a cs)) ->
  (forall cls s, P (Str cls s)) ->
  Q [] ->
  (forall e l, P e -> Q l -> Q (e :: l)) ->
  forall e, P e.
Proof.
  intros HT HS Hnil Hcons.
  fix IH 1. intros [n a cs | cls s]; [|apply HS].
  apply HT. induction cs as [|c cs IHcs]; [exact Hnil|].
  apply Hcons; [apply IH | exact IHcs].
Defined.

Lemma PageElement_ind' (P : PageElement -> Prop) :
  (forall n a cs, Forall P cs -> P (Tag n a cs)) ->
  (forall cls s, P (Str cls s)) ->
  forall e, P e.
Proof.
  intros HT HS.
  apply (PageElement_rect' P (Forall P)); auto.
Qed.

(** ** Heading normalisation *)

Section Renaming.

Lemma rename_at_Tag f base n a cs :
  rename_at f base (Tag n a cs) = Tag (f base n) a (rename_list f (S base) cs).
Proof.
  simpl. f_equal. generalize (S base) as b.
  induction cs as [|c cs IH]; intros b; simpl; [done|]. by rewrite IH.
Qed.

Lemma flat_map_length_ext (g h : PageElement -> list PageElement) l l' :
  Forall2 (fun e e' => length (g e) = length (h e')) l l' ->
  length (flat_map g l) = length (flat_map h l').
Proof.
  induction 1 as [|e e' l l' He _ IH]; simpl; [done|].
  rewrite !length_app. lia.
Qed.

Lemma rename_at_size f e : forall base,
  length (self_and_descendants (rename_at f base e)) = length (self_and_descendants e).
Proof.
  induction e as [n a cs IH | cls s] using PageElement_ind'; intros base; [|done].
  rewrite rename_at_Tag. simpl. f_equal.
  generalize (S base) as b.
  induction IH as [|c cs Hc _ IHcs]; intros b; simpl; [done|].
  rewrite !length_app, Hc, IHcs. done.
Qed.

Lemma rename_list_size f l : forall base,
  length (flat_map self_and_descendants (rename_list f base l))
  = length (flat_map self_and_descendants l).
Proof.
  induction l as [|c l IH]; intros base; simpl; [done|].
  by rewrite !length_app, rename_at_size, IH.
Qed.

(** Two renamings in a row are one. *)
Lemma rename_at_compose f g e : forall base,
  rename_at g base (rename_at f base e) = rename_at (fun k x => g k (f k x)) base e.
Proof.
  induction e as [n a cs IH | cls s] using PageElement_ind'; intros base; [|done].
  rewrite !rename_at_Tag. f_equal.
  generalize (S base) as b.
  induction IH as [|c cs Hc _ IHcs]; intros b; simpl; [done|].
  by rewrite Hc, rename_at_size, IHcs.
Qed.

Lemma rename_list_compose f g l : forall base,
  rename_list g base (rename_list f base l) = rename_list (fun k x => g k (f k x)) base l.
Proof.
  induction l as [|c l IH]; intros base; simpl; [done|].
  by rewrite rename_at_compose, rename_at_size, IH.
Qed.

(** A renaming is determined by what it does to the tags that are there. *)
Lemma rename_at_ext f g e : forall base,
  (forall j n a cs, self_and_descendants e !! j = Some (Tag n a cs) ->
                    f (base + j) n = g (base + j) n) ->
  rename_at f base e = rename_at g base e.
Proof.
  induction e as [n a cs IH | cls s] using PageElement_ind'; intros base Hfg; [|done].
  rewrite !rename_at_Tag. f_equal.
  { specialize (Hfg 0 n a cs eq_refl). by rewrite Nat.add_0_r in Hfg. }
  assert (forall j n' a' cs', flat_map self_and_descendants cs !! j = Some (Tag n' a' cs') ->
                              f (S base + j) n' = g (S base + j) n') as Hcs.
  { intros j n' a' cs' Hj. specialize (Hfg (S j) n' a' cs' Hj).
    by replace (base + S j) with (S base + j) in Hfg by lia. }
  clear Hfg. revert Hcs. generalize (S base) as b.
  induction IH as [|c cs Hc _ IHcs]; intros b Hcs; simpl; [done|].
  f_equal.
  - apply Hc. intros j n' a' cs' Hj. apply (Hcs j n' a' cs').
    simpl. by apply lookup_app_l_Some.
  - apply IHcs. intros j n' a' cs' Hj.
    replace (b + length (self_and_descendants c) + j)
      with (b + (length (self_and_descendants c) + j)) by lia.
    apply (Hcs _ n' a' cs'). simpl.
    rewrite lookup_app_r by lia.
    by replace (length (self_and_descendants c) + j - length (self_and_descendants c))
      with j by lia.
Qed.

Lemma rename_list_ext f g l : forall base,
  (forall j n a cs, flat_map self_and_descendants l !! j = Some (Tag n a cs) ->
                    f (base + j) n = g (base + j) n) ->
  rename_list f base l = rename_list g base l.
Proof.
  induction l as [|c l IH]; intros base Hfg; simpl; [done|].
  f_equal.
  - apply rename_at_ext. intros j n a cs Hj. apply (Hfg j n a cs).
    simpl. by apply lookup_app_l_Some.
  - apply IH. intros j n a cs Hj.
    replace (base + length (self_and_descendants c) + j)
      with (base + (length (self_and_descendants c) + j)) by lia.
    apply (Hfg _ n a cs). simpl.
    rewrite lookup_app_r by lia.
    by replace (length (self_and_descendants c) + j - length (self_and_descendants c))
      with j by lia.
Qed.

(** Renaming that ignores positions is [retag]. *)
Lemma rename_at_retag h e : forall base, rename_at (fun _ => h) base e = retag h e.
Proof.
  induction e as [n a cs IH | cls s] using PageElement_ind'; intros base; [|done].
  rewrite rename_at_Tag. simpl. f_equal.
  generalize (S base) as b.
  induction IH as [|c cs Hc _ IHcs]; intros b; simpl; [done|].
  by rewrite Hc, IHcs.
Qed.

Lemma rename_list_retag h l : forall base, rename_list (fun _ => h) base l = map (retag h) l.
Proof.
  induction l as [|c l IH]; intros base; simpl; [done|].
  by rewrite rename_at_retag, IH.
Qed.

End Renaming.

Section FindAll.

(** What [find_all] returns: the tags of that name, each with its position. *)
Lemma elem_of_find_all_from tag_name l : forall pos r e,
  (r, e) ∈ find_all_from tag_name pos l
  <-> exists j, r = pos + j /\ l !! j = Some e /\ name e = Some tag_name.
Proof.
  induction l as [|x l IH]; intros pos r e; simpl.
  { split; [by intros ?%elem_of_nil | by intros (j & _ & ? & _)]. }
  assert ((r, e) ∈ find_all_from tag_name (S pos) l
          <-> exists j, r = pos + S j /\ (x :: l) !! S j = Some e /\ name e = Some tag_name)
    as Htail.
  { rewrite IH. split; intros (j & -> & ? & ?); exists j; (split; [lia | done]). }
  case_decide as Hx.
  - rewrite elem_of_cons, Htail. split.
    + intros [[= -> ->] | (j & ? & ? & ?)]; [exists 0 | exists (S j)]; auto with lia.
    + intros ([|j] & -> & Hj & ?); [left | right; eauto].
      simpl in Hj. injection Hj as ->. f_equal. lia.
  - rewrite Htail. split.
    + intros (j & ? & ? & ?). exists (S j); auto.
    + intros ([|j] & -> & Hj & ?); [|eauto].
      simpl in Hj. injection Hj as ->. done.
Qed.

Lemma elem_of_find_all tag_name soup r e :
  (r, e) ∈ find_all tag_name soup
  <-> descendants soup !! r = Some e /\ name e = Some tag_name.
Proof.
  unfold find_all. rewrite elem_of_find_all_from. split.
  - intros (j & -> & ? & ?). done.
  - intros [? ?]. exists r. done.
Qed.

Lemma find_all_positions tag_name soup r :
  r ∈ (find_all tag_name soup).*1
  <-> exists e, descendants soup !! r = Some e /\ name e = Some tag_name.
Proof.
  rewrite list_elem_of_fmap. split.
  - intros ([r' e] & -> & Hin). exists e. by apply elem_of_find_all.
  - intros (e & He). exists (r, e). split; [done | by apply elem_of_find_all].
Qed.

(** The positions come out in document order. *)
Lemma find_all_from_sorted tag_name l : forall pos,
  StronglySorted lt (find_all_from tag_name pos l).*1
  /\ Forall (fun r => pos <= r) (find_all_from tag_name pos l).*1.
Proof.
  induction l as [|x l IH]; intros pos; simpl.
  { split; constructor. }
  destruct (IH (S pos)) as [Hs Hle].
  case_decide; simpl.
  - split; constructor; [done | | lia |].
    + eapply Forall_impl; [exact Hle | simpl; lia].
    + eapply Forall_impl; [exact Hle | simpl; lia].
  - split; [done|]. eapply Forall_impl; [exact Hle | simpl; lia].
Qed.

Lemma find_all_sorted tag_name soup : StronglySorted lt (find_all tag_name soup).*1.
Proof. apply find_all_from_sorted. Qed.

End FindAll.

Section Promotion.

Lemma retag_compose g h e : retag g (retag h e) = retag (fun n => g (h n)) e.
Proof.
  induction e as [n a cs IH | cls s] using PageElement_ind'; [|done].
  simpl. f_equal. rewrite map_map.
  induction IH as [|c cs Hc _ IHcs]; simpl; [done|]. by rewrite Hc, IHcs.
Qed.

Lemma retag_ext g h e : (forall n, g n = h n) -> retag g e = retag h e.
Proof.
  intros Hgh.
  induction e as [n a cs IH | cls s] using PageElement_ind'; [|done].
  simpl. rewrite Hgh. f_equal.
  induction IH as [|c cs Hc _ IHcs]; simpl; [done|]. by rewrite Hc, IHcs.
Qed.

(** Assigning one name at each of a list of positions, one after the other. *)
Lemma foldl_set_name new_name (rs : list handle) : forall soup,
  foldl (fun sp (h : handle) => set_name new_name h.1 sp) soup rs
  = rename_list (fun k old => if bool_decide (k ∈ rs.*1) then new_name else old) 0 soup.
Proof.
  induction rs as [|h rs IH]; intros soup; cbn [foldl].
  { transitivity (rename_list (fun _ => id) 0 soup).
    - rewrite rename_list_retag. symmetry.
      rewrite <- (map_id soup) at 2. apply map_ext. intros e.
      induction e as [n a cs IHe | cls s] using PageElement_ind'; [|done].
      simpl. f_equal. rewrite <- (map_id cs) at 2.
      induction IHe as [|c cs Hc _ IHcs]; simpl; [done|]. by rewrite Hc, IHcs.
    - apply rename_list_ext. intros j n a cs _. done. }
  rewrite IH. unfold set_name. rewrite rename_list_compose.
  apply rename_list_ext. intros j n a cs _. rewrite fmap_cons. cbn beta.
  rewrite Nat.add_0_l.
  destruct (decide (j = h.1)) as [->|Hne].
  - rewrite (bool_decide_eq_true_2 (h.1 ∈ h.1 :: rs.*1)) by (apply elem_of_cons; auto).
    by destruct (bool_decide _).
  - destruct (bool_decide (j ∈ rs.*1)) eqn:Hin.
    + apply bool_decide_eq_true in Hin.
      rewrite bool_decide_eq_true_2; [done | apply elem_of_cons; auto].
    + apply bool_decide_eq_false in Hin.
      rewrite bool_decide_eq_false_2; [done|].
      rewrite elem_of_cons. tauto.
Qed.

(** One pass of the promotion loop renames exactly the tags of one name. *)
Lemma promote_one_retag soup promotion_needed :
  promote_one soup promotion_needed = map (retag (promote_if promotion_needed)) soup.
Proof.
  unfold promote_one. rewrite foldl_set_name.
  rewrite <- (rename_list_retag _ soup 0).
  apply rename_list_ext. intros j n a cs Hj. simpl. unfold promote_if.
  destruct (decide (n = promotion_needed)) as [->|Hne].
  - rewrite bool_decide_eq_true_2.
    + by rewrite bool_decide_eq_true_2.
    + apply find_all_positions. by exists (Tag promotion_needed a cs).
  - rewrite bool_decide_eq_false_2.
    + by rewrite bool_decide_eq_false_2.
    + intros (e & He & Hn)%find_all_positions.
      pose proof (eq_trans (eq_sym He) Hj) as [= ->].
      simpl in Hn. congruence.
Qed.

Lemma promote_name_chain n :
  promote_if "h5" (promote_if "h4" (promote_if "h3" (promote_if "h2" n))) = promote_name n.
Proof.
  unfold promote_if, promote_name, promote_these.
  repeat (case_bool_decide; simplify_eq; try done);
    repeat match goal with
           | H : _ ∉ _ |- _ => rewrite !not_elem_of_cons in H; destruct_and?; try done
           | H : _ ∈ _ |- _ => rewrite !elem_of_cons in H; destruct_or?; simplify_eq; try done
           end;
    try (by exfalso; eapply not_elem_of_nil).
Qed.

(** The whole promotion loop is the renaming of the specification. *)
Lemma promote_retag soup : promote soup = map (retag promote_name) soup.
Proof.
  unfold promote, promote_these. simpl.
  rewrite !promote_one_retag, !map_map.
  apply map_ext. intros e. rewrite !retag_compose.
  apply retag_ext, promote_name_chain.
Qed.

Lemma self_and_descendants_retag h e :
  self_and_descendants (retag h e) = map (retag h) (self_and_descendants e).
Proof.
  induction e as [n a cs IH | cls s] using PageElement_ind'; [|done].
  simpl. f_equal.
  induction IH as [|c cs Hc _ IHcs]; simpl; [done|].
  by rewrite map_app, Hc, IHcs.
Qed.

Lemma descendants_retag h soup :
  descendants (map (retag h) soup) = map (retag h) (descendants soup).
Proof.
  unfold descendants. induction soup as [|e soup IH]; simpl; [done|].
  by rewrite map_app, self_and_descendants_retag, IH.
Qed.

Lemma promote_name_h1 n : n ∈ promote_these \/ n = "h1" <-> promote_name n = "h1".
Proof.
  unfold promote_name. case_bool_decide as Hn; split; auto.
  - intros [? | ?]; done.
Qed.

Lemma promote_name_not_subordinate n : promote_name n ∉ promote_these.
Proof.
  unfold promote_name. case_bool_decide as Hn; [|done].
  unfold promote_these. rewrite !not_elem_of_cons.
  repeat split; try done. apply not_elem_of_nil.
Qed.

End Promotion.

(** ** Trimming *)

Section Strip.

Lemma rstrip_cons_nonspace c r :
  Py.isspace_char c = false -> Py.rstrip (String c r) = String c (Py.rstrip r).
Proof. intros Hc. simpl. rewrite Hc. by destruct (Py.rstrip r). Qed.

Lemma rstrip_idempotent s : Py.rstrip (Py.rstrip s) = Py.rstrip s.
Proof.
  induction s as [|c r IH]; [done|]. simpl.
  destruct (Py.rstrip r) as [|c' r'] eqn:Hr.
  - destruct (Py.isspace_char c) eqn:Hc; [done|]. by rewrite rstrip_cons_nonspace.
  - simpl. simpl in IH. destruct (Py.rstrip r'); by rewrite IH.
Qed.

Lemma lstrip_head s :
  Py.lstrip s = EmptyString
  \/ exists c r, Py.lstrip s = String c r /\ Py.isspace_char c = false.
Proof.
  induction s as [|c r IH]; simpl; [auto|].
  destruct (Py.isspace_char c) eqn:Hc; [done|]. right. eauto.
Qed.

Lemma strip_idempotent s : Py.strip (Py.strip s) = Py.strip s.
Proof.
  unfold Py.strip. destruct (lstrip_head s) as [-> | (c & r & -> & Hc)]; [done|].
  rewrite rstrip_cons_nonspace by done. simpl Py.lstrip. rewrite Hc.
  rewrite rstrip_cons_nonspace by done. by rewrite rstrip_idempotent.
Qed.

(** The stand-in for slugify does not see surrounding whitespace. *)
Lemma slugify_strip s : Slug.slugify (Py.strip s) = Slug.slugify s.
Proof. unfold Slug.slugify. by rewrite strip_idempotent. Qed.

End Strip.

(** ** Formatting the topic number *)

Section Format.

Lemma to_uint_normal n : Decimal.unorm (Nat.to_uint n) = Nat.to_uint n.
Proof. by rewrite <- (Unsigned.of_to n) at 2; rewrite Unsigned.to_of. Qed.

Lemma to_uint_nonnil n : Nat.to_uint n <> Decimal.Nil.
Proof. rewrite <- to_uint_normal. apply unorm_nonnil. Qed.

Lemma length_string_of_uint d :
  String.length (NilEmpty.string_of_uint d) = Unsigned.usize d.
Proof. induction d; simpl; congruence. Qed.

Lemma length_decimal n : String.length (Py.decimal n) = Unsigned.usize (Nat.to_uint n).
Proof.
  unfold Py.decimal, NilZero.string_of_uint.
  pose proof (to_uint_nonnil n).
  destruct (Nat.to_uint n) eqn:Hd; try done; apply (length_string_of_uint (_ _)).
Qed.

Lemma length_zeros k : String.length (Py.zeros k) = k.
Proof. induction k; simpl; congruence. Qed.

Lemma string_length_app s1 s2 :
  String.length (s1 +:+ s2) = String.length s1 + String.length s2.
Proof. induction s1 as [|c s1 IH]; [done|]. cbn. by rewrite <- IH. Qed.

(** A number with [k] digits is at least [10^(k-1)], unless it is 0. *)
Lemma usize_normal_bound d :
  Decimal.unorm d = d -> Nat.of_uint d <> 0 -> 10 ^ (Unsigned.usize d - 1) <= Nat.of_uint d.
Proof.
  intros Hnorm Hne.
  destruct d as [|d|d|d|d|d|d|d|d|d|d].
  1: done.
  1: { exfalso. rewrite unorm_D0 in Hnorm. unfold Decimal.unorm in Hnorm.
       pose proof (nzhead_nonzero d d) as Hnz.
       destruct (Decimal.nzhead d) eqn:Hh; simplify_eq; done. }
  all: unfold Nat.of_uint; simpl Nat.of_uint_acc; rewrite Unsigned.of_uint_acc_spec;
    simpl Unsigned.usize; rewrite ?Nat.sub_0_r, ?Nat.tail_mul_spec.
  all: replace (S (Unsigned.usize d) - 1) with (Unsigned.usize d) by lia;
    generalize (10 ^ Unsigned.usize d) (Unsigned.of_lu (Decimal.rev d)); intros; lia.
Qed.

Lemma usize_to_uint_bound n : n <> 0 -> 10 ^ (Unsigned.usize (Nat.to_uint n) - 1) <= n.
Proof.
  intros Hn. pose proof (usize_normal_bound (Nat.to_uint n) (to_uint_normal n)) as Hb.
  rewrite Unsigned.of_to in Hb. auto.
Qed.

(** The formatted number has at least five characters, exactly five below
    100000, and reads back as the number. *)
Lemma length_format_05d n :
  5 <= String.length (Py.format_05d n)
  /\ (n < 10 ^ 5 -> String.length (Py.format_05d n) = 5).
Proof.
  unfold Py.format_05d. cbv zeta. rewrite string_length_app, length_zeros.
  split; [lia|]. intros Hn.
  enough (String.length (Py.decimal n) <= 5) by lia.
  rewrite length_decimal.
  destruct (decide (n = 0)) as [->|Hn0]; [simpl; lia|].
  pose proof (usize_to_uint_bound n Hn0) as Hb.
  destruct (le_lt_dec (Unsigned.usize (Nat.to_uint n)) 5) as [|Hgt]; [done|].
  assert (10 ^ 5 <= 10 ^ (Unsigned.usize (Nat.to_uint n) - 1))
    by (apply Nat.pow_le_mono_r; lia).
  lia.
Qed.

Lemma uint_of_string_zeros k s :
  NilEmpty.uint_of_string (Py.zeros k +:+ s)
  = option_map (Nat.iter k Decimal.D0) (NilEmpty.uint_of_string s).
Proof.
  induction k as [|k IH].
  - change (Py.zeros 0 +:+ s) with s. by destruct (NilEmpty.uint_of_string s).
  - change (Py.zeros (S k) +:+ s) with (String "0" (Py.zeros k +:+ s)).
    simpl. rewrite IH. by destruct (NilEmpty.uint_of_string s).
Qed.

Lemma of_uint_iter_D0 k d : Nat.of_uint (Nat.iter k Decimal.D0 d) = Nat.of_uint d.
Proof.
  induction k as [|k IH]; [done|]. simpl Nat.iter.
  rewrite <- IH. reflexivity.
Qed.

Lemma int_format_05d n : Py.int (Py.format_05d n) = Some n.
Proof.
  unfold Py.int, Py.format_05d. cbv zeta.
  assert (NilEmpty.uint_of_string (Py.decimal n) = Some (Nat.to_uint n)) as Hdec.
  { unfold Py.decimal, NilZero.string_of_uint.
    pose proof (to_uint_nonnil n).
    destruct (Nat.to_uint n) eqn:Hd; try done; apply (NilEmpty.usu (_ _)). }
  assert (NilZero.uint_of_string (Py.zeros (5 - String.length (Py.decimal n)) +:+ Py.decimal n)
          = NilEmpty.uint_of_string
              (Py.zeros (5 - String.length (Py.decimal n)) +:+ Py.decimal n)) as ->.
  { unfold NilZero.uint_of_string.
    destruct (Py.zeros _ +:+ _) eqn:Hs; [|done].
    apply (f_equal String.length) in Hs.
    rewrite string_length_app, length_zeros in Hs. simpl in Hs.
    assert (String.length (Py.decimal n) = 0) as Hlen by lia.
    rewrite Hlen in Hs. simpl in Hs. lia. }
  rewrite uint_of_string_zeros, Hdec. simpl.
  by rewrite of_uint_iter_D0, Unsigned.of_to.
Qed.

End Format.

(** ** Building one topic *)

Section Tally.

Lemma tally_count_this_tag (d : tag_dict) e key :
  tally (ChoppedH1._count_this_tag d e) key
  = tally d key + (if decide (key = name e) then 1 else 0).
Proof.
  unfold tally, ChoppedH1._count_this_tag.
  destruct (d !! name e) as [n|] eqn:Hd; case_decide as Hk; subst.
  - rewrite lookup_insert_eq, Hd. simpl. lia.
  - rewrite lookup_insert_ne by done. lia.
  - rewrite lookup_insert_eq, Hd. simpl. lia.
  - rewrite lookup_insert_ne by done. lia.
Qed.

(** Only the counter of the element's own name moves. *)
Lemma lookup_count_this_tag_ne (d : tag_dict) e key :
  key <> name e -> ChoppedH1._count_this_tag d e !! key = d !! key.
Proof.
  intros Hk. unfold ChoppedH1._count_this_tag.
  destruct (d !! name e); by rewrite lookup_insert_ne.
Qed.

Lemma tally_foldl_count (l : list PageElement) : forall (d : tag_dict) key,
  tally (foldl ChoppedH1._count_this_tag d l) key = tally d key + count_named key l.
Proof.
  unfold count_named.
  induction l as [|e l IH]; intros d key; simpl; [lia|].
  rewrite IH, tally_count_this_tag, filter_cons.
  case_decide as Hk; subst.
  - rewrite decide_True by done. simpl. lia.
  - rewrite decide_False by congruence. lia.
Qed.

(** The loop over the children: the texts and the tally it leaves. *)
Lemma collect_children_spec cs : forall string_list (valid : tag_dict),
  ChoppedH1.collect_children cs string_list valid
  = (string_list ++ child_texts cs, foldl ChoppedH1._count_this_tag valid (contributing cs)).
Proof.
  unfold child_texts, contributing.
  induction cs as [|c cs IH]; intros string_list valid; simpl.
  { by rewrite app_nil_r. }
  rewrite filter_cons. destruct (string_of c) as [s|] eqn:Hs; simpl.
  - by rewrite IH, <- app_assoc.
  - by rewrite IH.
Qed.

Lemma length_child_texts cs : length (child_texts cs) = length (contributing cs).
Proof.
  unfold child_texts, contributing.
  induction cs as [|c cs IH]; simpl; [done|].
  rewrite filter_cons. destruct (string_of c) as [s|] eqn:Hs; simpl.
  - f_equal. exact IH.
  - exact IH.
Qed.

End Tally.

Section Topic.

Lemma name_in_valid e : name_in (name e) VALID_ELEMENTS = true <-> name e = Some "p".
Proof.
  unfold name_in, VALID_ELEMENTS. destruct (name e) as [n|]; [|done].
  rewrite bool_decide_eq_true, list_elem_of_singleton. split; congruence.
Qed.

(** A fresh topic has the fixed shape around an empty body. *)
Lemma init_shape slugify h index c :
  ChoppedH1.init slugify h index = Py.Returned c ->
  exists s, string_of h.2 = Some s
            /\ ChoppedH1.h1_tag c = h
            /\ ChoppedH1.text c = Py.strip s
            /\ ChoppedH1.slug c = slugify (Py.strip s)
            /\ ChoppedH1.index c = index
            /\ topic_shape c [].
Proof.
  unfold ChoppedH1.init. destruct (string_of h.2) as [s|]; [|done].
  intros [= <-]. exists s. repeat split.
Qed.

Lemma init_returns slugify h index s :
  string_of h.2 = Some s -> exists c, ChoppedH1.init slugify h index = Py.Returned c.
Proof. unfold ChoppedH1.init. intros ->. eauto. Qed.

Lemma append_body c body e :
  topic_shape c body ->
  (append (ChoppedH1.body_tag c) e (ChoppedH1.soup c)).1
  = topic_tree (ChoppedH1.index c) (ChoppedH1.text c) (body ++ [e]).
Proof. intros [-> ->]. reflexivity. Qed.

(** What [add_this_element] does to a paragraph. *)
Lemma add_this_element_p the_stats self this_element :
  name this_element = Some "p" ->
  ChoppedH1.add_this_element the_stats self this_element
  = Py.Returned
      ({| element_count := element_count the_stats + 1;
          parsed_tag_count := parsed_tag_count the_stats + 1;
          invalid_tag_count := invalid_tag_count the_stats;
          valid_tag_dict :=
            foldl ChoppedH1._count_this_tag
              (ChoppedH1._count_this_tag (valid_tag_dict the_stats) this_element)
              (contributing (children this_element));
          invalid_tag_dict := invalid_tag_dict the_stats |},
       {| ChoppedH1.h1_tag := ChoppedH1.h1_tag self;
          ChoppedH1.text := ChoppedH1.text self;
          ChoppedH1.slug := ChoppedH1.slug self;
          ChoppedH1.index := ChoppedH1.index self;
          ChoppedH1.soup :=
            (append (ChoppedH1.body_tag self) (rebuilt_paragraph (children this_element))
               (ChoppedH1.soup self)).1;
          ChoppedH1.body_tag := ChoppedH1.body_tag self |}).
Proof.
  intros Hp. unfold ChoppedH1.add_this_element.
  rewrite (proj2 (name_in_valid _) Hp). simpl negb. cbv iota.
  rewrite decide_True by done.
  rewrite collect_children_spec. done.
Qed.

(** What it does to anything else. *)
Lemma add_this_element_other the_stats self this_element :
  name this_element <> Some "p" ->
  ChoppedH1.add_this_element the_stats self this_element
  = Py.Returned
      ({| element_count := element_count the_stats + 1;
          parsed_tag_count := parsed_tag_count the_stats;
          invalid_tag_count := invalid_tag_count the_stats + 1;
          valid_tag_dict := valid_tag_dict the_stats;
          invalid_tag_dict :=
            ChoppedH1._count_this_tag (invalid_tag_dict the_stats) this_element |},
       self).
Proof.
  intros Hp. unfold ChoppedH1.add_this_element.
  destruct (name_in (name this_element) VALID_ELEMENTS) eqn:Hin; [|done].
  by apply name_in_valid in Hin.
Qed.

Lemma same_topic_refl c : same_topic c c.
Proof. by repeat split. Qed.

Lemma same_topic_trans c1 c2 c3 : same_topic c1 c2 -> same_topic c2 c3 -> same_topic c1 c3.
Proof. unfold same_topic. intros (?&?&?&?&?) (?&?&?&?&?). repeat split; congruence. Qed.

End Topic.

Section Walk.

Lemma add_all_app l1 l2 st c :
  add_all (l1 ++ l2) st c = ('(st', c') ← add_all l1 st c; add_all l2 st' c').
Proof.
  revert st c. induction l1 as [|e l1 IH]; intros st c; simpl; [done|].
  destruct (ChoppedH1.add_this_element st c e) as [[st' c']| |]; simpl; [apply IH|done..].
Qed.

(** One element: the call returns, the topic keeps its shape, and its body
    grows by the rebuilt paragraph exactly when the element is a paragraph. *)
Lemma add_this_element_shape st c e body :
  topic_shape c body ->
  exists st' c',
    ChoppedH1.add_this_element st c e = Py.Returned (st', c')
    /\ same_topic c c'
    /\ topic_shape c' (body ++ paragraphs [e])
    /\ element_count st' = element_count st + 1.
Proof.
  intros Hshape. unfold paragraphs. rewrite filter_cons, filter_nil.
  destruct (decide (name e = Some "p")) as [Hp|Hp].
  - rewrite (add_this_element_p _ _ _ Hp). eexists _, _. split; [done|].
    split; [by repeat split|]. split; [|done].
    split; [|apply Hshape]. simpl. by apply append_body.
  - rewrite (add_this_element_other _ _ _ Hp). eexists _, _. split; [done|].
    split; [apply same_topic_refl|]. split; [|done].
    simpl. by rewrite app_nil_r.
Qed.

Lemma paragraphs_app l1 l2 : paragraphs (l1 ++ l2) = paragraphs l1 ++ paragraphs l2.
Proof. unfold paragraphs. by rewrite filter_app, fmap_app. Qed.

Lemma add_all_shape l : forall st c body,
  topic_shape c body ->
  exists st' c',
    add_all l st c = Py.Returned (st', c')
    /\ same_topic c c'
    /\ topic_shape c' (body ++ paragraphs l)
    /\ element_count st' = element_count st + length l.
Proof.
  induction l as [|e l IH]; intros st c body Hshape.
  { exists st, c. simpl. rewrite app_nil_r. auto using same_topic_refl with lia. }
  destruct (add_this_element_shape st c e body Hshape) as (st1 & c1 & Hadd & Hsame & Hsh & Hcnt).
  destruct (IH st1 c1 _ Hsh) as (st2 & c2 & Hall & Hsame2 & Hsh2 & Hcnt2).
  exists st2, c2. simpl. rewrite Hadd. simpl. split; [exact Hall|].
  split; [by eapply same_topic_trans|]. split.
  - change (e :: l) with ([e] ++ l). by rewrite paragraphs_app, app_assoc.
  - simpl. lia.
Qed.

(** The loop over [next_elements] hands over the element nodes met before
    the next top-level heading, and nothing else. *)
Lemma walk_add_all elements : forall st c,
  walk elements st c = add_all (filter is_Tag (until_h1 elements)) st c.
Proof.
  induction elements as [|e elements IH]; intros st c; simpl; [done|].
  destruct e as [n a cs | cls s]; simpl.
  - case_decide as Hn; [done|]. rewrite filter_cons. simpl.
    destruct (ChoppedH1.add_this_element st c (Tag n a cs)) as [[st' c']| |]; simpl; [|done..].
    apply IH.
  - rewrite filter_cons. simpl. apply IH.
Qed.

Lemma until_h1_split l :
  exists after,
    l = until_h1 l ++ after
    /\ Forall (fun e => name e <> Some "h1") (until_h1 l)
    /\ (after = [] \/ exists e, head after = Some e /\ name e = Some "h1").
Proof.
  induction l as [|e l (after & Hl & Hno & Hafter)]; simpl.
  { exists []. auto. }
  case_decide as Hn.
  - exists (e :: l). split; [done|]. split; [constructor|]. right. eauto.
  - exists after. split; [simpl; by f_equal|]. split; [by constructor|done].
Qed.

End Walk.

(** ** The loops over the headings *)

Section Chop.
Variable slugify : string -> string.

Lemma collect_h1_strings_spec hs : forall acc,
  collect_h1_strings hs acc = acc ++ omap title_text hs.
Proof.
  induction hs as [|h hs IH]; intros acc; simpl.
  { by rewrite app_nil_r. }
  unfold title_text at 1.
  destruct (string_of h.2) as [s|]; [|apply IH].
  destruct (Py.isspace s); simpl; [apply IH|].
  by rewrite IH, <- app_assoc.
Qed.

Lemma chop_cons_rejected soup doc_title h rest i st cl :
  accepted slugify doc_title h = false ->
  chop slugify soup doc_title (h :: rest) i st cl = chop slugify soup doc_title rest i st cl.
Proof.
  unfold accepted. simpl. destruct (string_of h.2) as [s|]; [|done].
  destruct (Py.isspace s); [done|]. simpl.
  destruct (bool_decide (slugify s = doc_title)); [done|discriminate].
Qed.

Lemma chop_cons_accepted soup doc_title h rest i st cl :
  accepted slugify doc_title h = true ->
  chop slugify soup doc_title (h :: rest) i st cl
  = (c ← ChoppedH1.init slugify h (i + 1);
     '(st', c') ← add_all (span soup h.1) st c;
     chop slugify soup doc_title rest (i + 1) st' (cl ++ [c'])).
Proof.
  unfold accepted. simpl. destruct (string_of h.2) as [s|] eqn:Hs; [|done].
  destruct (Py.isspace s); [done|]. simpl.
  destruct (bool_decide (slugify s = doc_title)); [discriminate|]. intros _. simpl.
  destruct (ChoppedH1.init slugify h (i + 1)) as [c| |]; simpl; [|done..].
  by rewrite walk_add_all.
Qed.

(** The second loop always runs to its end; it makes one topic for each
    accepted heading, in order, and numbers them consecutively. *)
Lemma chop_spec soup doc_title hs : forall i st cl,
  exists st' new,
    chop slugify soup doc_title hs i st cl = Py.Returned (i + length new, st', cl ++ new)
    /\ ChoppedH1.h1_tag <$> new = filter (accepted slugify doc_title) hs
    /\ ChoppedH1.index <$> new = seq (S i) (length new)
    /\ Forall (topic_of slugify soup) new.
Proof.
  induction hs as [|h hs IH]; intros i st cl.
  { exists st, []. simpl. rewrite Nat.add_0_r, app_nil_r. auto. }
  rewrite filter_cons.
  destruct (accepted slugify doc_title h) eqn:Hacc.
  - rewrite (chop_cons_accepted _ _ _ _ _ _ _ Hacc).
    assert (exists s, string_of h.2 = Some s) as [s Hs].
    { unfold accepted in Hacc. destruct (string_of h.2); [eauto|done]. }
    destruct (init_returns slugify h (i + 1) s Hs) as [c Hinit].
    rewrite Hinit. simpl.
    destruct (init_shape _ _ _ _ Hinit) as (s' & Hs' & Hh & Ht & Hsl & Hidx & Hshape).
    assert (s' = s) as -> by congruence.
    destruct (add_all_shape (span soup h.1) st c [] Hshape)
      as (st1 & c1 & Hall & (Hh1 & Ht1 & Hsl1 & Hidx1 & Hb1) & Hsh1 & _).
    rewrite Hall. simpl.
    destruct (IH (i + 1) st1 (cl ++ [c1])) as (st2 & new & Hchop & Hhs & Hidxs & Htopics).
    exists st2, (c1 :: new). rewrite Hchop. split.
    { f_equal. f_equal; [f_equal; simpl; lia | by rewrite <- app_assoc]. }
    split; [|split].
    + rewrite fmap_cons, Hhs. f_equal. congruence.
    + rewrite fmap_cons, Hidxs. simpl. f_equal; [lia|].
      by replace (i + 1) with (S i) by lia.
    + constructor; [|done]. exists s. rewrite Hh1, Hh.
      repeat split; [done | congruence | congruence | apply Hsh1 | apply Hsh1].
  - rewrite (chop_cons_rejected _ _ _ _ _ _ _ Hacc).
    destruct (IH i st cl) as (st2 & new & Hchop & Hhs & Hidxs & Htopics).
    exists st2, new. auto.
Qed.

Lemma structure_check_spec soup :
  match soup with
  | c :: html :: _ =>
      structure_check soup
      = if bool_decide (type c = StrT Comment) && bool_decide (type html = TagT)
        then Py.Returned (c, html)
        else Py.Exited (-1) "Unexpected xml structure!"
  | _ => structure_check soup = Py.Raised Py.IndexError
  end.
Proof.
  destruct soup as [|c [|html rest]]; [done..|].
  unfold structure_check. simpl.
  destruct (bool_decide (type c = StrT Comment)), (bool_decide (type html = TagT)); done.
Qed.

Lemma structure_check_well_shaped soup :
  well_shaped soup <-> exists c html, structure_check soup = Py.Returned (c, html).
Proof.
  pose proof (structure_check_spec soup) as Hspec. split.
  - intros (c & html & rest & -> & Hc & Hh). exists c, html.
    by rewrite Hspec, !bool_decide_eq_true_2.
  - intros (c' & html' & Hret). destruct soup as [|c [|html rest]]; [congruence..|].
    rewrite Hspec in Hret. exists c, html, rest.
    destruct (bool_decide (type c = StrT Comment)) eqn:Hc; [|done].
    destruct (bool_decide (type html = TagT)) eqn:Hh; [|done].
    by apply bool_decide_eq_true in Hc, Hh.
Qed.

(** What a run that returns has done. *)
Lemma main_inv soup r :
  main slugify soup = Py.Returned r ->
  exists first,
    head (omap title_text (the_h1s soup)) = Some first
    /\ doc_title r = slugify first
    /\ ChoppedH1.h1_tag <$> chopped_list r
       = filter (accepted slugify (doc_title r)) (the_h1s soup)
    /\ ChoppedH1.index <$> chopped_list r = seq 1 (length (chopped_list r))
    /\ Forall (topic_of slugify (promote soup)) (chopped_list r)
    /\ written r = ChoppedH1.write_to_file <$> chopped_list r.
Proof.
  unfold main. destruct (structure_check soup) as [[c html]| |]; simpl; [|done..].
  destruct (body_length html) as [n| |]; simpl; [|done..].
  rewrite collect_h1_strings_spec. simpl. fold (the_h1s soup).
  unfold Py.index. rewrite <- head_lookup.
  destruct (head (omap title_text (the_h1s soup))) as [first|]; simpl; [|done].
  destruct (chop_spec (promote soup) (slugify first) (the_h1s soup) 0 the_stats_initial [])
    as (st' & new & Hchop & Hhs & Hidx & Htopics).
  rewrite Hchop. simpl. intros [= <-]. simpl. exists first. repeat split; done.
Qed.

(** When a run returns. *)
Lemma main_returns soup :
  (exists r, main slugify soup = Py.Returned r)
  <-> exists c html,
        structure_check soup = Py.Returned (c, html)
        /\ is_Some (find "body" html)
        /\ is_Some (head (omap title_text (the_h1s soup))).
Proof.
  unfold main. destruct (structure_check soup) as [[c html]| |]; simpl.
  2,3: split; [by intros [? ?] | by intros (? & ? & ? & _)].
  unfold body_length.
  destruct (find "body" html) as [b|] eqn:Hb; simpl.
  2: { split; [by intros [? ?]|].
       intros (? & ? & [= <- <-] & [? Hb'] & _). congruence. }
  rewrite collect_h1_strings_spec. simpl. fold (the_h1s soup).
  unfold Py.index. rewrite <- head_lookup.
  destruct (head (omap title_text (the_h1s soup))) as [first|]; simpl.
  2: { split; [by intros [? ?] | by intros (? & ? & _ & _ & [? ?])]. }
  destruct (chop_spec (promote soup) (slugify first) (the_h1s soup) 0 the_stats_initial [])
    as (st' & new & Hchop & _).
  rewrite Hchop. simpl. split; [|eauto]. intros _. exists c, html.
  rewrite Hb. eauto.
Qed.

End Chop.

Section Acceptance.
Variable slugify : string -> string.

Lemma title_text_Some h t :
  title_text h = Some t
  <-> exists s, string_of h.2 = Some s /\ Py.isspace s = false /\ t = Py.strip s.
Proof.
  unfold title_text. destruct (string_of h.2) as [s|].
  - destruct (Py.isspace s) eqn:Hsp; split.
    + done.
    + intros (s' & [= <-] & ? & _). congruence.
    + intros [= <-]. eauto.
    + intros (s' & [= <-] & _ & ->). done.
  - split; [done | by intros (? & ? & _)].
Qed.

Lemma title_text_None h : title_text h = None <-> ~ non_blank h.
Proof.
  unfold non_blank. split.
  - intros Hnone (s & Hs & Hsp).
    assert (title_text h = Some (Py.strip s)) as Hsome by (apply title_text_Some; eauto).
    congruence.
  - intros Hno. destruct (title_text h) as [t|] eqn:Ht; [|done].
    apply title_text_Some in Ht as (s & ? & ? & _). exfalso. apply Hno. eauto.
Qed.

Lemma head_omap_split {A B} (f : A -> option B) (l : list A) (y : B) :
  head (omap f l) = Some y ->
  exists before x after,
    l = before ++ x :: after /\ Forall (fun z => f z = None) before /\ f x = Some y.
Proof.
  induction l as [|x l IH]; simpl; [done|].
  destruct (f x) as [y'|] eqn:Hx; simpl.
  - intros [= ->]. exists [], x, l. auto.
  - intros (before & x' & after & -> & Hbefore & Hx')%IH.
    exists (x :: before), x', after. auto.
Qed.

Lemma accepted_true doc_title h :
  accepted slugify doc_title h = true
  <-> exists s, string_of h.2 = Some s /\ Py.isspace s = false /\ slugify s <> doc_title.
Proof.
  unfold accepted. destruct (string_of h.2) as [s|].
  - rewrite andb_true_iff, !negb_true_iff, bool_decide_eq_false. split.
    + intros [? ?]. eauto.
    + intros (s' & [= <-] & ? & ?). done.
  - split; [done | by intros (? & ? & _)].
Qed.

(** A heading without a string takes part in neither loop. *)
Lemma chop_skip soup doc_title before h after : forall i st cl,
  accepted slugify doc_title h = false ->
  chop slugify soup doc_title (before ++ h :: after) i st cl
  = chop slugify soup doc_title (before ++ after) i st cl.
Proof.
  induction before as [|h' before IH]; intros i st cl Hrej; simpl app.
  { by apply chop_cons_rejected. }
  destruct (accepted slugify doc_title h') eqn:Hacc.
  - rewrite !chop_cons_accepted by done.
    destruct (ChoppedH1.init slugify h' (i + 1)) as [c| |]; simpl; [|done..].
    destruct (add_all (span soup h'.1) st c) as [[st' c']| |]; simpl; [|done..].
    by apply IH.
  - rewrite !chop_cons_rejected by done. by apply IH.
Qed.

(** Filtering keeps the document order. *)
Lemma filter_positions_sorted (P : handle -> Prop) `{!forall h, Decision (P h)}
    (l : list handle) :
  StronglySorted lt l.*1 -> StronglySorted lt (filter P l).*1.
Proof.
  induction l as [|h l IH]; simpl; [done|].
  intros [Hl Hh]%StronglySorted_inv. rewrite filter_cons.
  case_decide; [|auto]. rewrite fmap_cons. constructor; [auto|].
  rewrite Forall_forall in Hh |- *. intros r Hr. apply Hh.
  apply list_elem_of_fmap in Hr as (x & -> & Hx).
  apply list_elem_of_filter in Hx as [_ Hx].
  apply list_elem_of_fmap. eauto.
Qed.

End Acceptance.

(** C5. After the promotion loop every second- to fifth-level heading is a
    top-level heading: the loop is the renaming [retag promote_name], which
    keeps attributes, contents and the position of every node; no tag of a
    subordinate heading level remains; and [find_all "h1"] returns every
    formerly subordinate heading, at its old position and with its old
    attributes. *)
Theorem promote_normalises_headings (soup : BeautifulSoup) :
  promote soup = map (retag promote_name) soup
  /\ length (descendants (promote soup)) = length (descendants soup)
  /\ (forall r e, descendants soup !! r = Some e ->
        descendants (promote soup) !! r = Some (retag promote_name e))
  /\ (forall r n a cs, descendants (promote soup) !! r = Some (Tag n a cs) ->
        n ∉ promote_these)
  /\ (forall r n a cs, descendants soup !! r = Some (Tag n a cs) -> n ∈ promote_these ->
        (r, Tag "h1" a (map (retag promote_name) cs)) ∈ find_all "h1" (promote soup)).
Proof.
  rewrite promote_retag, descendants_retag.
  split; [done|]. split; [by rewrite length_map|].
  assert (forall r e, descendants soup !! r = Some e ->
            map (retag promote_name) (descendants soup) !! r = Some (retag promote_name e))
    as Hat.
  { intros r e He. change (map ?f ?l) with (f <$> l). by rewrite list_lookup_fmap, He. }
  split; [exact Hat|]. split.
  - intros r n a cs Hr. change (map ?f ?l) with (f <$> l) in Hr.
    rewrite list_lookup_fmap in Hr.
    destruct (descendants soup !! r) as [[n' a' cs' | cls s]|]; simplify_eq/=.
    apply promote_name_not_subordinate.
  - intros r n a cs Hr Hn. apply elem_of_find_all.
    rewrite descendants_retag. split; [|done].
    pose proof (Hat _ _ Hr) as Hr'. simpl in Hr'.
    assert (promote_name n = "h1") as Hn' by (apply promote_name_h1; auto).
    rewrite Hn' in Hr'. exact Hr'.
Qed.

(** C1. For an accepted heading the loop that builds its topic hands to
    [add_this_element] exactly the span of the heading: the document, in
    document order, is everything up to the heading, the heading itself, a
    stretch [before] without any top-level heading, and then either nothing
    or the next top-level heading; the span is the element nodes of [before],
    whether they are siblings of the heading or lie deeper.  String nodes
    are left out and the heading itself is not part of it. *)
Theorem span_of_accepted_heading (slugify : string -> string) (soup : BeautifulSoup)
    (doc_title : string) (h : handle) (rest : list handle) (i : nat)
    (st : ElementStatisticsClass) (cl : list ChoppedH1.t) :
  accepted slugify doc_title h = true ->
  descendants soup !! h.1 = Some h.2 ->
  chop slugify soup doc_title (h :: rest) i st cl
  = (c ← ChoppedH1.init slugify h (i + 1);
     '(st', c') ← add_all (span soup h.1) st c;
     chop slugify soup doc_title rest (i + 1) st' (cl ++ [c']))
  /\ exists before after,
       descendants soup = take h.1 (descendants soup) ++ [h.2] ++ before ++ after
       /\ span soup h.1 = filter is_Tag before
       /\ Forall (fun e => name e <> Some "h1") before
       /\ (after = [] \/ exists e, head after = Some e /\ name e = Some "h1").
Proof.
  intros Hacc Hh. split; [by apply chop_cons_accepted|].
  destruct (until_h1_split (next_elements soup h.1)) as (after & Hsplit & Hno & Hafter).
  exists (until_h1 (next_elements soup h.1)), after.
  split; [|done].
  rewrite <- Hsplit. unfold next_elements.
  rewrite <- (take_drop (S h.1) (descendants soup)) at 1.
  rewrite (take_S_r _ _ _ Hh), <- app_assoc. done.
Qed.

Lemma span_of_accepted_heading_witness :
  exists before after,
    descendants (promote Examples.intro_setup)
    = take 9 (descendants (promote Examples.intro_setup))
      ++ [Examples.setup_heading.2] ++ before ++ after
    /\ span (promote Examples.intro_setup) 9 = filter is_Tag before
    /\ Forall (fun e => name e <> Some "h1") before
    /\ (after = [] \/ exists e, head after = Some e /\ name e = Some "h1").
Proof.
  apply (span_of_accepted_heading Slug.slugify (promote Examples.intro_setup) "intro"
           Examples.setup_heading [] 0 the_stats_initial []); reflexivity.
Defined.

(** C2, as amended. For a paragraph in a span, the paragraph put into the
    topic has as its text the trimmed [.string] of each immediate child whose
    [.string] is not [None], in child order and joined by single spaces.
    Such a child is a string node (a comment too) or an element whose only
    child has a [.string]; a child with no or with several children adds no
    entry, even when there is text directly in it.  Every contributing child
    is tallied as accepted under its own name ([None] for a string node),
    next to the paragraph itself, and the new paragraph is appended at the
    end of the body of the topic. *)
Theorem paragraph_rebuilt (the_stats : ElementStatisticsClass) (self : ChoppedH1.t)
    (a : list (string * attr_value)) (cs body : list PageElement) :
  topic_shape self body ->
  exists stats' self',
    ChoppedH1.add_this_element the_stats self (Tag "p" a cs) = Py.Returned (stats', self')
    /\ same_topic self self'
    /\ topic_shape self' (body ++ [rebuilt_paragraph cs])
    /\ string_of (rebuilt_paragraph cs) = Some (Py.join " " (child_texts cs))
    /\ child_texts cs = (fun c => Py.strip (default "" (string_of c))) <$> contributing cs
    /\ (forall key,
          tally (valid_tag_dict stats') key
          = tally (valid_tag_dict the_stats) key
            + (if decide (key = Some "p") then 1 else 0)
            + count_named key (contributing cs))
    /\ parsed_tag_count stats' = parsed_tag_count the_stats + 1
    /\ element_count stats' = element_count the_stats + 1
    /\ invalid_tag_count stats' = invalid_tag_count the_stats
    /\ invalid_tag_dict stats' = invalid_tag_dict the_stats.
Proof.
  intros Hshape. rewrite add_this_element_p by done.
  eexists _, _. split; [done|]. split; [by repeat split|].
  split.
  { split; [|apply Hshape]. simpl. by apply append_body. }
  split; [done|]. split.
  { unfold child_texts, contributing. clear.
    induction cs as [|c cs IH]; [done|]. simpl. rewrite filter_cons.
    destruct (string_of c) as [s|] eqn:Hs; simpl.
    - rewrite Hs. simpl. f_equal. exact IH.
    - exact IH. }
  split; [|done].
  intros key. simpl. by rewrite tally_foldl_count, tally_count_this_tag.
Qed.

Lemma paragraph_rebuilt_witness :
  exists stats' self',
    ChoppedH1.add_this_element the_stats_initial Examples.setup_topic Examples.hello_paragraph
    = Py.Returned (stats', self')
    /\ ChoppedH1.soup self'
       = topic_tree 1 "Setup" [Tag "p" [] [Str NavigableString "Hello world !"]]
    /\ tally (valid_tag_dict stats') (Some "p") = 1
    /\ tally (valid_tag_dict stats') (Some "b") = 1
    /\ tally (valid_tag_dict stats') None = 2
    /\ tally (valid_tag_dict stats') (Some "br") = 0
    /\ tally (valid_tag_dict stats') (Some "span") = 0.
Proof.
  destruct (paragraph_rebuilt the_stats_initial Examples.setup_topic
              [("class", AttrList ["c1"])] (children Examples.hello_paragraph) [])
    as (stats' & self' & Hadd & _ & [Hsoup _] & _ & _ & Htally & _).
  { split; reflexivity. }
  exists stats', self'. split; [exact Hadd|]. split.
  { rewrite Hsoup. destruct self'. injection Hadd as _ <- <- <- <- _ _. reflexivity. }
  rewrite !Htally. repeat split; reflexivity.
Defined.

(** C7. For an element whose tag is not "p", [add_this_element] raises the
    rejected counter of that tag name by one and no other rejected counter,
    leaves the accepted tally and the topic (and with it the body) as they
    were, so that nothing is put out for the element. *)
Theorem non_paragraph_rejected (the_stats : ElementStatisticsClass) (self : ChoppedH1.t)
    (e : PageElement) :
  name e <> Some "p" ->
  exists stats',
    ChoppedH1.add_this_element the_stats self e = Py.Returned (stats', self)
    /\ tally (invalid_tag_dict stats') (name e) = tally (invalid_tag_dict the_stats) (name e) + 1
    /\ (forall key, key <> name e ->
          invalid_tag_dict stats' !! key = invalid_tag_dict the_stats !! key)
    /\ invalid_tag_count stats' = invalid_tag_count the_stats + 1
    /\ element_count stats' = element_count the_stats + 1
    /\ valid_tag_dict stats' = valid_tag_dict the_stats
    /\ parsed_tag_count stats' = parsed_tag_count the_stats.
Proof.
  intros Hp. rewrite add_this_element_other by done.
  eexists. split; [done|]. simpl. split.
  { rewrite tally_count_this_tag. by rewrite decide_True. }
  split; [|done]. intros key Hkey. by apply lookup_count_this_tag_ne.
Qed.

Lemma non_paragraph_rejected_witness :
  exists stats',
    ChoppedH1.add_this_element the_stats_initial Examples.setup_topic
      (Tag "table" [] [Tag "p" [] [Str NavigableString "cell"]])
    = Py.Returned (stats', Examples.setup_topic)
    /\ tally (invalid_tag_dict stats') (Some "table") = 1
    /\ valid_tag_dict stats' = ∅.
Proof.
  destruct (non_paragraph_rejected the_stats_initial Examples.setup_topic
              (Tag "table" [] [Tag "p" [] [Str NavigableString "cell"]]))
    as (stats' & Hadd & Hone & _ & _ & _ & Hvalid & _).
  { discriminate. }
  exists stats'. split; [exact Hadd|]. split; [exact Hone | exact Hvalid].
Defined.

(** C9. The fatal branch of [add_this_element] is never taken: an element
    that passes the test against [VALID_ELEMENTS] is a "p", so the dispatch
    on the tag name takes the paragraph branch; whatever the element, the
    call returns and does not exit. *)
Theorem unexpected_tag_unreachable (the_stats : ElementStatisticsClass) (self : ChoppedH1.t)
    (e : PageElement) :
  (name_in (name e) VALID_ELEMENTS = true <-> name e = Some "p")
  /\ (exists r, ChoppedH1.add_this_element the_stats self e = Py.Returned r)
  /\ (forall code msg, ChoppedH1.add_this_element the_stats self e <> Py.Exited code msg).
Proof.
  split; [apply name_in_valid|].
  destruct (decide (name e = Some "p")) as [Hp|Hp].
  - rewrite add_this_element_p by done. split; [eauto | done].
  - rewrite add_this_element_other by done. split; [eauto | done].
Qed.

(** C3. The document title is the slug of the first top-level heading whose
    text is not blank.  A heading becomes a topic exactly when it has text
    ([.string] is not [None]), the text is not whitespace only
    ([str.isspace]) and its slug differs from the document title; no topic
    carries the slug of the document title.  Slugs are taken of trimmed
    text, which slugify does not tell from the untrimmed one. *)
Theorem title_and_acceptance (slugify : string -> string) (soup : BeautifulSoup) (r : run) :
  (forall s, slugify (Py.strip s) = slugify s) ->
  main slugify soup = Py.Returned r ->
  (exists before h after,
      the_h1s soup = before ++ h :: after
      /\ Forall (fun h' => ~ non_blank h') before
      /\ non_blank h
      /\ heading_slug slugify h = Some (doc_title r))
  /\ (forall h, h ∈ the_h1s soup ->
        (h ∈ ChoppedH1.h1_tag <$> chopped_list r
         <-> non_blank h /\ heading_slug slugify h <> Some (doc_title r)))
  /\ (forall c, c ∈ chopped_list r -> ChoppedH1.slug c <> doc_title r).
Proof.
  intros Hstrip Hmain.
  destruct (main_inv slugify soup r Hmain) as (first & Hfirst & Htitle & Hhs & _ & Htopics & _).
  assert (forall h, accepted slugify (doc_title r) h = true
                    <-> non_blank h /\ heading_slug slugify h <> Some (doc_title r)) as Hacc.
  { intros h. rewrite accepted_true. unfold non_blank, heading_slug. split.
    - intros (s & Hs & Hsp & Hne). split; [eauto|].
      rewrite Hs. simpl. rewrite Hstrip. congruence.
    - intros [(s & Hs & Hsp) Hne]. exists s. repeat split; [done..|].
      rewrite Hs in Hne. simpl in Hne. rewrite Hstrip in Hne. congruence. }
  split; [|split].
  - apply head_omap_split in Hfirst as (before & h & after & Hsplit & Hbefore & Hh).
    exists before, h, after. split; [done|]. split.
    { eapply Forall_impl; [exact Hbefore|]. intros h'. apply title_text_None. }
    apply title_text_Some in Hh as (s & Hs & Hsp & ->).
    split; [by exists s|]. unfold heading_slug. by rewrite Hs, Htitle.
  - intros h Hin. rewrite Hhs, list_elem_of_filter, <- Hacc.
    rewrite Is_true_true. tauto.
  - intros c Hc.
    rewrite Forall_forall in Htopics. destruct (Htopics c Hc) as (s & Hs & _ & Hslug & _).
    assert (ChoppedH1.h1_tag c ∈ ChoppedH1.h1_tag <$> chopped_list r) as Hin
      by (apply list_elem_of_fmap; eauto).
    rewrite Hhs, list_elem_of_filter, Is_true_true in Hin. destruct Hin as [Hin _].
    apply Hacc in Hin as [_ Hne]. unfold heading_slug in Hne. rewrite Hs in Hne.
    simpl in Hne. congruence.
Qed.

Lemma title_and_acceptance_witness :
  exists r,
    main Slug.slugify Examples.intro_setup = Py.Returned r
    /\ doc_title r = "intro"
    /\ ChoppedH1.h1_tag <$> chopped_list r = [Examples.setup_heading]
    /\ forall c, c ∈ chopped_list r -> ChoppedH1.slug c <> doc_title r.
Proof.
  assert (exists r, main Slug.slugify Examples.intro_setup = Py.Returned r
                    /\ doc_title r = "intro"
                    /\ ChoppedH1.h1_tag <$> chopped_list r = [Examples.setup_heading])
    as (r & Hmain & Htitle & Hhs).
  { eexists. vm_compute. repeat split. }
  exists r. split; [exact Hmain|]. split; [exact Htitle|]. split; [exact Hhs|].
  apply (title_and_acceptance Slug.slugify Examples.intro_setup r slugify_strip Hmain).
Defined.

(** C4. The topics are made from the accepted headings, in document order,
    and the n-th of them has the index n: the indices are 1, 2, ..., N for
    the N headings that pass the acceptance filter.  A rejected heading has
    no topic, hence no index, and one file is written for each topic. *)
Theorem topic_indices_dense (slugify : string -> string) (soup : BeautifulSoup) (r : run) :
  main slugify soup = Py.Returned r ->
  ChoppedH1.h1_tag <$> chopped_list r = filter (accepted slugify (doc_title r)) (the_h1s soup)
  /\ ChoppedH1.index <$> chopped_list r
     = seq 1 (length (filter (accepted slugify (doc_title r)) (the_h1s soup)))
  /\ StronglySorted lt (ChoppedH1.h1_tag <$> chopped_list r).*1
  /\ (forall h, accepted slugify (doc_title r) h = false ->
        h ∉ ChoppedH1.h1_tag <$> chopped_list r)
  /\ written r = ChoppedH1.write_to_file <$> chopped_list r
  /\ length (written r) = length (filter (accepted slugify (doc_title r)) (the_h1s soup)).
Proof.
  intros Hmain.
  destruct (main_inv slugify soup r Hmain) as (first & _ & _ & Hhs & Hidx & _ & Hwritten).
  assert (length (chopped_list r)
          = length (filter (accepted slugify (doc_title r)) (the_h1s soup))) as Hlen.
  { by rewrite <- Hhs, length_fmap. }
  split; [done|]. split; [by rewrite <- Hlen|]. split.
  { rewrite Hhs. apply filter_positions_sorted, find_all_sorted. }
  split.
  { intros h Hrej. rewrite Hhs, list_elem_of_filter, Hrej. by intros [? _]. }
  split; [done|]. by rewrite Hwritten, length_fmap.
Qed.

Lemma topic_indices_dense_witness :
  exists r,
    main Slug.slugify Examples.intro_setup = Py.Returned r
    /\ ChoppedH1.index <$> chopped_list r = [1]
    /\ length (written r) = 1.
Proof.
  assert (exists r, main Slug.slugify Examples.intro_setup = Py.Returned r
                    /\ filter (accepted Slug.slugify (doc_title r))
                         (the_h1s Examples.intro_setup) = [Examples.setup_heading])
    as (r & Hmain & Hacc).
  { eexists. vm_compute. repeat split. }
  destruct (topic_indices_dense Slug.slugify Examples.intro_setup r Hmain)
    as (_ & Hidx & _ & _ & _ & Hlen).
  exists r. rewrite Hidx, Hlen, Hacc. repeat split. exact Hmain.
Defined.

(** C6. Every topic of a run has the fixed shape: a root "topic" whose id is
    "tbd__" followed by the index of the topic, padded with zeros to five
    digits, and whose xmlns:ditaarch attribute is the DITA architecture URI;
    below it, in this order, a "title" with the trimmed text of the heading,
    a "shortdesc" with the empty text, a "prolog" with the one child
    "author" that reads "TurboChopper!", and the "body", which is what
    [body_tag] refers to and which holds the rebuilt paragraphs of the span.
    This tree is what is written to the file of the topic. *)
Theorem topic_has_fixed_shape (slugify : string -> string) (soup : BeautifulSoup) (r : run)
    (c : ChoppedH1.t) :
  main slugify soup = Py.Returned r ->
  c ∈ chopped_list r ->
  exists s body,
    string_of (ChoppedH1.h1_tag c).2 = Some s
    /\ ChoppedH1.soup c
       = [Tag "topic"
            [("id", AttrStr ("tbd__" +:+ Py.format_05d (ChoppedH1.index c)));
             ("xmlns:ditaarch", AttrStr XMLNS_DITAARCH)]
            [Tag "title" [] [Str NavigableString (Py.strip s)];
             Tag "shortdesc" [] [Str NavigableString ""];
             Tag "prolog" [] [Tag "author" [] [Str NavigableString "TurboChopper!"]];
             Tag "body" [] body]]
    /\ element_at (ChoppedH1.body_tag c) (ChoppedH1.soup c) = Some (Tag "body" [] body)
    /\ body = paragraphs (span (promote soup) (ChoppedH1.h1_tag c).1)
    /\ Py.int (Py.format_05d (ChoppedH1.index c)) = Some (ChoppedH1.index c)
    /\ 5 <= String.length (Py.format_05d (ChoppedH1.index c))
    /\ (ChoppedH1.index c < 10 ^ 5 -> String.length (Py.format_05d (ChoppedH1.index c)) = 5)
    /\ (ChoppedH1.slug c +:+ EXTN_XML, ChoppedH1.soup c) ∈ written r.
Proof.
  intros Hmain Hc.
  destruct (main_inv slugify soup r Hmain) as (first & _ & _ & _ & _ & Htopics & Hwritten).
  rewrite Forall_forall in Htopics.
  destruct (Htopics c Hc) as (s & Hs & Htext & _ & Hsoup & Hbody).
  exists s, (paragraphs (span (promote soup) (ChoppedH1.h1_tag c).1)).
  split; [done|]. split.
  { rewrite Hsoup, Htext. reflexivity. }
  split.
  { rewrite Hbody, Hsoup. reflexivity. }
  split; [done|]. split; [apply int_format_05d|].
  split; [apply length_format_05d|]. split; [apply length_format_05d|].
  rewrite Hwritten. apply list_elem_of_fmap. by exists c.
Qed.

Lemma topic_has_fixed_shape_witness :
  exists r c,
    main Slug.slugify Examples.intro_setup = Py.Returned r
    /\ chopped_list r = [c]
    /\ ChoppedH1.soup c
       = [Tag "topic"
            [("id", AttrStr "tbd__00001");
             ("xmlns:ditaarch", AttrStr "http://dita.oasis-open.org/architecture/2005/")]
            [Tag "title" [] [Str NavigableString "Setup"];
             Tag "shortdesc" [] [Str NavigableString ""];
             Tag "prolog" [] [Tag "author" [] [Str NavigableString "TurboChopper!"]];
             Tag "body" [] [Tag "p" [] [Str NavigableString "Step one."]]]].
Proof.
  assert (exists r c, main Slug.slugify Examples.intro_setup = Py.Returned r
                      /\ chopped_list r = [c]
                      /\ ChoppedH1.h1_tag c = Examples.setup_heading
                      /\ ChoppedH1.index c = 1)
    as (r & c & Hmain & Hlist & Hh & Hidx).
  { eexists _, _. vm_compute. repeat split. }
  destruct (topic_has_fixed_shape Slug.slugify Examples.intro_setup r c Hmain)
    as (s & body & Hs & Hsoup & _ & Hbody & _).
  { rewrite Hlist. apply list_elem_of_singleton. reflexivity. }
  exists r, c. split; [exact Hmain|]. split; [exact Hlist|].
  rewrite Hsoup, Hbody, Hidx. rewrite Hh in Hs |- *. injection Hs as <-. reflexivity.
Defined.

(** X4. The sanity check on a document with at least two top-level nodes: it
    passes for a comment followed by an element, and otherwise the run
    prints the message and exits before anything else is done. *)
Lemma structure_check_two_nodes (slugify : string -> string) (c html : PageElement)
    (rest : list PageElement) :
  (type c = StrT Comment /\ type html = TagT ->
     structure_check (c :: html :: rest) = Py.Returned (c, html))
  /\ (~ (type c = StrT Comment /\ type html = TagT) ->
        main slugify (c :: html :: rest) = Py.Exited (-1) "Unexpected xml structure!").
Proof.
  pose proof (structure_check_spec (c :: html :: rest)) as Hspec. cbv beta iota in Hspec.
  split.
  - intros [Hc Hh]. by rewrite Hspec, !bool_decide_eq_true_2.
  - intros Hno. unfold main. rewrite Hspec.
    destruct (bool_decide (type c = StrT Comment)) eqn:Hc;
      destruct (bool_decide (type html = TagT)) eqn:Hh; try done.
    exfalso. apply Hno. by apply bool_decide_eq_true in Hc, Hh.
Qed.

(** C8 (where the code departs from it). A document with fewer than two
    top-level nodes does not have a comment followed by an element as its
    first two nodes, yet the run does not report the structural error: the
    list access of the sanity check fails and the run ends in an uncaught
    [IndexError]. *)
Theorem short_document_raises (slugify : string -> string) (soup : BeautifulSoup) :
  length soup < 2 ->
  ~ well_shaped soup
  /\ structure_check soup = Py.Raised Py.IndexError
  /\ main slugify soup = Py.Raised Py.IndexError
  /\ main slugify soup <> Py.Exited (-1) "Unexpected xml structure!".
Proof.
  intros Hlen.
  assert (structure_check soup = Py.Raised Py.IndexError) as Hcheck.
  { destruct soup as [|c [|html rest]]; [done..|]. simpl in Hlen. lia. }
  split.
  { intros (c & html & rest & -> & _). simpl in Hlen. lia. }
  split; [done|]. unfold main. rewrite Hcheck. done.
Qed.

Lemma short_document_raises_witness :
  main Slug.slugify Examples.no_comment = Py.Raised Py.IndexError.
Proof.
  apply (short_document_raises Slug.slugify Examples.no_comment). simpl. lia.
Defined.

(** C10. A top-level heading whose [.string] is [None], as for a heading
    with mixed content, is treated like a heading without text: both loops
    over the headings run as if it were not in the list, so it neither
    provides the document title nor takes an index, and no topic is made
    from it, whatever text lies below it. *)
Theorem heading_without_string_ignored (slugify : string -> string) (soup : BeautifulSoup)
    (doc_title : string) (before : list handle) (h : handle) (after : list handle)
    (h1_strings : list string) (i : nat) (st : ElementStatisticsClass)
    (cl : list ChoppedH1.t) :
  string_of h.2 = None ->
  collect_h1_strings (before ++ h :: after) h1_strings
  = collect_h1_strings (before ++ after) h1_strings
  /\ chop slugify soup doc_title (before ++ h :: after) i st cl
     = chop slugify soup doc_title (before ++ after) i st cl
  /\ (forall r, main slugify soup = Py.Returned r ->
        h ∉ ChoppedH1.h1_tag <$> chopped_list r).
Proof.
  intros Hnone.
  assert (forall t, accepted slugify t h = false) as Hrej.
  { intros t. unfold accepted. by rewrite Hnone. }
  split; [|split].
  - rewrite !collect_h1_strings_spec, !omap_app. simpl.
    unfold title_text at 2. by rewrite Hnone.
  - by apply chop_skip.
  - intros r Hmain.
    destruct (main_inv slugify soup r Hmain) as (_ & _ & _ & Hhs & _).
    rewrite Hhs, list_elem_of_filter, Hrej. by intros [? _].
Qed.

Lemma heading_without_string_ignored_witness :
  Py.isspace (get_text Examples.mixed_heading.2) = false
  /\ Examples.mixed_heading ∈ the_h1s Examples.mixed_doc
  /\ exists r, main Slug.slugify Examples.mixed_doc = Py.Returned r
               /\ Examples.mixed_heading ∉ ChoppedH1.h1_tag <$> chopped_list r.
Proof.
  split; [reflexivity|]. split.
  { vm_compute. apply elem_of_cons. right. apply elem_of_cons. left. reflexivity. }
  assert (exists r, main Slug.slugify Examples.mixed_doc = Py.Returned r) as [r Hmain].
  { eexists. vm_compute. reflexivity. }
  exists r. split; [exact Hmain|].
  apply (heading_without_string_ignored Slug.slugify Examples.mixed_doc "" []
           Examples.mixed_heading [] [] 0 the_stats_initial []); [reflexivity | exact Hmain].
Defined.


(** * Further properties of the script *)

(** ** Dictionaries in insertion order *)

Section OrderedDict.

Lemma ordered_get_lookup (d : Ordered.dict) key :
  Ordered.get d key = (list_to_map d : tag_dict) !! key.
Proof.
  induction d as [|[k v] d IH]; simpl; [done|].
  case_decide as Hk; subst.
  - by rewrite lookup_insert_eq.
  - by rewrite lookup_insert_ne.
Qed.

Lemma ordered_set_map (d : Ordered.dict) key value :
  (list_to_map (Ordered.set d key value) : tag_dict) = <[key := value]> (list_to_map d).
Proof.
  induction d as [|[k v] d IH]; simpl; [done|].
  case_decide as Hk; subst; simpl.
  - by rewrite insert_insert_eq.
  - rewrite IH. by apply insert_insert_ne.
Qed.

Lemma ordered_set_keys (d : Ordered.dict) key value :
  (Ordered.set d key value).*1 = if decide (key ∈ d.*1) then d.*1 else d.*1 ++ [key].
Proof.
  induction d as [|[k v] d IH]; [done|].
  cbn [Ordered.set]. destruct (decide (k = key)) as [->|Hk]; rewrite !fmap_cons; cbn [fst].
  - rewrite decide_True; [done | apply elem_of_cons; auto].
  - rewrite IH. destruct (decide (key ∈ d.*1)) as [Hin|Hin].
    + rewrite decide_True; [done | apply elem_of_cons; auto].
    + rewrite decide_False; [done|]. rewrite elem_of_cons. by intros [->|?].
Qed.

Lemma ordered_set_NoDup (d : Ordered.dict) key value :
  NoDup d.*1 -> NoDup (Ordered.set d key value).*1.
Proof.
  intros Hd. rewrite ordered_set_keys. case_decide as Hin; [done|].
  apply NoDup_app. split; [done|]. split; [|apply NoDup_singleton].
  intros k Hk ->%list_elem_of_singleton. done.
Qed.

Lemma ordered_set_fresh (d : Ordered.dict) key value :
  key ∉ d.*1 -> Ordered.set d key value = d ++ [(key, value)].
Proof.
  induction d as [|[k v] d IH]; simpl; [done|].
  rewrite not_elem_of_cons. intros [Hne Hin].
  rewrite decide_False by done. by rewrite IH.
Qed.

Lemma insert_item_perm x l : Ordered.insert_item x l ≡ₚ x :: l.
Proof.
  induction l as [|y l IH]; simpl; [done|].
  destruct (x.2 <? y.2); [|done]. rewrite IH. apply Permutation_swap.
Qed.

Lemma sorted_by_count_perm l : Ordered.sorted_by_count l ≡ₚ l.
Proof.
  induction l as [|x l IH]; simpl; [done|].
  by rewrite insert_item_perm, IH.
Qed.

Lemma insert_item_sorted x l :
  StronglySorted (fun a b : option string * nat => b.2 <= a.2) l ->
  StronglySorted (fun a b : option string * nat => b.2 <= a.2) (Ordered.insert_item x l).
Proof.
  induction l as [|y l IH]; simpl; intros Hl.
  { repeat constructor. }
  apply StronglySorted_inv in Hl as [Hl Hy].
  destruct (x.2 <? y.2) eqn:Hxy.
  - apply Nat.ltb_lt in Hxy. constructor; [auto|].
    rewrite (insert_item_perm x l). constructor; [lia | done].
  - apply Nat.ltb_ge in Hxy. constructor; [by constructor|].
    constructor; [done|]. eapply Forall_impl; [exact Hy|]. simpl. lia.
Qed.

Lemma sorted_by_count_sorted l :
  StronglySorted (fun a b : option string * nat => b.2 <= a.2) (Ordered.sorted_by_count l).
Proof.
  induction l as [|x l IH]; simpl; [constructor|]. by apply insert_item_sorted.
Qed.

Lemma insert_item_stable (v : nat) x l :
  filter (fun y : option string * nat => y.2 = v) (Ordered.insert_item x l)
  = filter (fun y : option string * nat => y.2 = v) (x :: l).
Proof.
  induction l as [|y l IH]; [done|]. cbn [Ordered.insert_item].
  destruct (x.2 <? y.2) eqn:Hxy; [|done].
  apply Nat.ltb_lt in Hxy.
  rewrite (filter_cons _ y), IH, !filter_cons.
  destruct (decide (x.2 = v)), (decide (y.2 = v)); try done. lia.
Qed.

Lemma sorted_by_count_stable (v : nat) l :
  filter (fun y : option string * nat => y.2 = v) (Ordered.sorted_by_count l)
  = filter (fun y : option string * nat => y.2 = v) l.
Proof.
  induction l as [|x l IH]; [done|]. cbn [Ordered.sorted_by_count foldr].
  rewrite insert_item_stable, !filter_cons.
  change (foldr Ordered.insert_item [] l) with (Ordered.sorted_by_count l).
  by rewrite IH.
Qed.

Lemma foldl_set_fresh (l : Ordered.dict) : forall acc : Ordered.dict,
  NoDup (acc ++ l).*1 ->
  foldl (fun in_order (item : option string * nat) => Ordered.set in_order item.1 item.2)
    acc l = acc ++ l.
Proof.
  induction l as [|[k v] l IH]; intros acc Hnd; simpl.
  { by rewrite app_nil_r. }
  rewrite ordered_set_fresh.
  - rewrite IH; rewrite <- app_assoc; done.
  - rewrite fmap_app in Hnd. apply NoDup_app in Hnd as (_ & Hdisj & _).
    intros Hin. apply (Hdisj _ Hin). simpl. apply elem_of_cons. auto.
Qed.

Lemma order_tags_dict_sorted (d : Ordered.dict) :
  NoDup d.*1 -> Ordered._order_tags_dict d = Ordered.sorted_by_count d.
Proof.
  intros Hd. unfold Ordered._order_tags_dict. rewrite foldl_set_fresh; [done|].
  simpl. by rewrite sorted_by_count_perm.
Qed.

End OrderedDict.

(** ** The statistics of a run *)

Section Statistics.
Variable slugify : string -> string.

(** The statistics after a call do not depend on the topic. *)
Lemma add_this_element_stats st c e :
  exists c', ChoppedH1.add_this_element st c e = Py.Returned (tally_element st e, c').
Proof.
  unfold tally_element. destruct (decide (name e = Some "p")) as [Hp|Hp].
  - rewrite add_this_element_p by done. eauto.
  - rewrite add_this_element_other by done. eauto.
Qed.

Lemma add_all_stats l : forall st c,
  exists c', add_all l st c = Py.Returned (foldl tally_element st l, c').
Proof.
  induction l as [|e l IH]; intros st c; simpl; [eauto|].
  destruct (add_this_element_stats st c e) as [c1 ->]. simpl. apply IH.
Qed.

Lemma chop_stats soup doc_title hs : forall i st cl,
  exists i' cl',
    chop slugify soup doc_title hs i st cl
    = Py.Returned
        (i',
         foldl tally_element st
           (flat_map (fun h : handle => span soup h.1) (filter (accepted slugify doc_title) hs)),
         cl').
Proof.
  induction hs as [|h hs IH]; intros i st cl; [simpl; eauto|].
  rewrite filter_cons. destruct (accepted slugify doc_title h) eqn:Hacc.
  - rewrite (chop_cons_accepted _ _ _ _ _ _ _ _ Hacc).
    assert (exists s, string_of h.2 = Some s) as [s Hs].
    { unfold accepted in Hacc. destruct (string_of h.2); [eauto|done]. }
    destruct (init_returns slugify h (i + 1) s Hs) as [c ->]. simpl.
    destruct (add_all_stats (span soup h.1) st c) as [c1 ->]. simpl.
    rewrite foldl_app. apply IH.
  - rewrite (chop_cons_rejected _ _ _ _ _ _ _ _ Hacc). simpl. apply IH.
Qed.

Lemma main_stats soup r :
  main slugify soup = Py.Returned r ->
  the_stats r = foldl tally_element the_stats_initial (walked slugify soup (doc_title r)).
Proof.
  unfold main. destruct (structure_check soup) as [[c html]| |]; simpl; [|done..].
  destruct (body_length html) as [n| |]; simpl; [|done..].
  destruct (Py.index (collect_h1_strings (find_all "h1" (promote soup)) []) 0)
    as [first| |]; simpl; [|done..].
  destruct (chop_stats (promote soup) (slugify first) (find_all "h1" (promote soup)) 0
              the_stats_initial []) as (i' & cl' & ->).
  simpl. by intros [= <-].
Qed.

Lemma length_paragraphs_one e :
  length (paragraphs [e]) = if decide (name e = Some "p") then 1 else 0.
Proof. unfold paragraphs. rewrite filter_cons, filter_nil. by case_decide. Qed.

(** The counts after a series of elements. *)
Lemma foldl_tally_counts l : forall st,
  let st' := foldl tally_element st l in
  element_count st' = element_count st + length l
  /\ parsed_tag_count st' = parsed_tag_count st + length (paragraphs l)
  /\ invalid_tag_count st' + length (paragraphs l) = invalid_tag_count st + length l.
Proof.
  induction l as [|e l IH]; intros st; simpl.
  { unfold paragraphs. simpl. lia. }
  destruct (IH (tally_element st e)) as (He & Hp & Hi).
  change (e :: l) with ([e] ++ l). rewrite paragraphs_app, length_app.
  simpl in *. rewrite He, Hp. rewrite length_paragraphs_one.
  revert Hi. generalize (invalid_tag_count (foldl tally_element (tally_element st e) l)).
  unfold tally_element.
  destruct (decide (name e = Some "p")); simpl; intros; lia.
Qed.

Lemma total_count_this_tag (d : tag_dict) e :
  total (ChoppedH1._count_this_tag d e) = total d + 1.
Proof.
  unfold total, ChoppedH1._count_this_tag.
  destruct (d !! name e) as [n|] eqn:Hd.
  - rewrite <- insert_delete_eq.
    rewrite map_fold_insert_L; [|intros; lia | apply lookup_delete_eq].
    rewrite (map_fold_delete_L _ _ (name e) n d); [lia | intros; lia | done].
  - rewrite map_fold_insert_L; [lia | intros; lia | done].
Qed.

Lemma foldl_tally_invalid l : forall st key,
  let st' := foldl tally_element st l in
  total (invalid_tag_dict st') + length (paragraphs l) = total (invalid_tag_dict st) + length l
  /\ tally (invalid_tag_dict st') key
     = tally (invalid_tag_dict st) key
       + (if decide (key = Some "p") then 0 else count_named key l).
Proof.
  induction l as [|e l IH]; intros st key; simpl.
  { unfold paragraphs, count_named. simpl. case_decide; lia. }
  destruct (IH (tally_element st e) key) as (Ht & Hk).
  change (e :: l) with ([e] ++ l). rewrite paragraphs_app, length_app.
  simpl in *. rewrite Hk. clear IH Hk.
  rewrite length_paragraphs_one.
  revert Ht. generalize (total (invalid_tag_dict (foldl tally_element (tally_element st e) l))).
  unfold count_named. rewrite filter_cons.
  unfold tally_element.
  destruct (decide (name e = Some "p")) as [Hp|Hp]; simpl; intros t Ht.
  - split; [lia|]. destruct (decide (key = Some "p")) as [->|Hkey]; [done|].
    rewrite decide_False by congruence. done.
  - rewrite total_count_this_tag in Ht. split; [lia|].
    rewrite tally_count_this_tag.
    destruct (decide (key = Some "p")) as [->|Hkey].
    + rewrite decide_False by congruence. lia.
    + destruct (decide (key = name e)) as [->|Hne].
      * rewrite decide_True by done. simpl. lia.
      * rewrite decide_False by congruence. lia.
Qed.

(** What is walked: element nodes of the promoted document, none of them a
    heading of the first five levels. *)
Lemma elem_of_until_h1 e l : e ∈ until_h1 l -> e ∈ l /\ name e <> Some "h1".
Proof.
  induction l as [|x l IH]; simpl; [by intros ?%elem_of_nil|].
  case_decide as Hx; [by intros ?%elem_of_nil|].
  rewrite !elem_of_cons. intros [->|Hin]; [auto|]. destruct (IH Hin). auto.
Qed.

Lemma elem_of_span soup r e :
  e ∈ span soup r -> is_Tag e /\ name e <> Some "h1" /\ e ∈ descendants soup.
Proof.
  unfold span, next_elements. rewrite list_elem_of_filter.
  intros [Htag (Hin & Hh1)%elem_of_until_h1]. repeat split; [done..|].
  apply list_elem_of_lookup in Hin as [j Hj]. rewrite lookup_drop in Hj.
  by eapply list_elem_of_lookup_2.
Qed.

Lemma elem_of_promoted soup e n :
  e ∈ descendants (promote soup) -> name e = Some n -> n ∉ promote_these.
Proof.
  rewrite promote_retag, descendants_retag.
  intros (e0 & -> & _)%list_elem_of_fmap. destruct e0 as [n0 a cs | cls s]; [|done].
  simpl. intros [= <-]. apply promote_name_not_subordinate.
Qed.

Lemma elem_of_walked doc_title soup e :
  e ∈ walked slugify soup doc_title ->
  exists n, name e = Some n /\ n <> "h1" /\ n ∉ promote_these.
Proof.
  unfold walked. rewrite list_elem_of_In, in_flat_map.
  intros (h & _ & Hin). apply list_elem_of_In, elem_of_span in Hin as (Htag & Hh1 & Hd).
  destruct e as [n a cs | cls s]; [|done]. exists n.
  split; [done|]. split; [simpl in Hh1; congruence|].
  by eapply elem_of_promoted.
Qed.

Lemma count_named_0 key (l : list PageElement) :
  (forall e, e ∈ l -> name e <> key) -> count_named key l = 0.
Proof.
  unfold count_named. induction l as [|e l IH]; intros Hno; [done|].
  rewrite filter_cons, decide_False.
  - apply IH. intros e' He'. apply Hno, elem_of_cons. auto.
  - apply Hno, elem_of_cons. auto.
Qed.

Lemma paragraphs_flat_map {A} (f : A -> list PageElement) (l : list A) :
  length (paragraphs (flat_map f l)) = sum_list ((fun x => length (paragraphs (f x))) <$> l).
Proof.
  induction l as [|x l IH]; simpl; [done|].
  by rewrite paragraphs_app, length_app, IH.
Qed.

Lemma body_of_shape c b : topic_shape c b -> body c = b.
Proof. intros [Hs Hb]. unfold body. by rewrite Hs, Hb. Qed.

End Statistics.

(** ** More on the promotion of headings *)

Section PromotionOrder.

(** Promoting a list of tag names, in whatever order they come. *)
Lemma foldl_promote_one (l : list string) : forall soup,
  foldl promote_one soup l
  = map (retag (fun n => if bool_decide (n ∈ l) then "h1" else n)) soup.
Proof.
  induction l as [|x l IH]; intros soup; simpl.
  { rewrite <- (map_id soup) at 1. apply map_ext. intros e.
    induction e as [n a cs IHe | cls s] using PageElement_ind'; [|done].
    simpl. f_equal. rewrite <- (map_id cs) at 1.
    induction IHe as [|c cs Hc _ IHcs]; simpl; [done|]. by rewrite <- Hc, <- IHcs. }
  rewrite IH, promote_one_retag, map_map. apply map_ext. intros e.
  rewrite retag_compose. apply retag_ext. intros n. unfold promote_if.
  destruct (decide (n = x)) as [->|Hne].
  - rewrite (bool_decide_eq_true_2 (x = x)) by done.
    rewrite (bool_decide_eq_true_2 (x ∈ x :: l)) by (apply elem_of_cons; auto).
    by destruct (bool_decide ("h1" ∈ l)).
  - rewrite (bool_decide_eq_false_2 (n = x)) by done.
    destruct (bool_decide (n ∈ l)) eqn:Hin.
    + apply bool_decide_eq_true in Hin.
      rewrite bool_decide_eq_true_2; [done | apply elem_of_cons; auto].
    + apply bool_decide_eq_false in Hin.
      rewrite bool_decide_eq_false_2; [done|]. rewrite elem_of_cons. by intros [?|?].
Qed.

Lemma string_of_retag h e : string_of (retag h e) = string_of e.
Proof.
  induction e as [n a cs IH | cls s] using PageElement_ind'; [|done].
  destruct IH as [|c cs Hc Hcs]; [done|].
  destruct Hcs as [|c' cs' _ _]; [exact Hc | done].
Qed.

Lemma get_text_retag h e : get_text (retag h e) = get_text e.
Proof.
  induction e as [n a cs IH | cls s] using PageElement_ind'; [|done].
  simpl. f_equal. rewrite map_map.
  induction IH as [|c cs Hc _ IHcs]; simpl; [done|]. by rewrite Hc, IHcs.
Qed.

Lemma promote_name_idempotent n : promote_name (promote_name n) = promote_name n.
Proof.
  unfold promote_name. destruct (bool_decide (n ∈ promote_these)) eqn:Hn.
  - by destruct (bool_decide ("h1" ∈ promote_these)).
  - by rewrite Hn.
Qed.

End PromotionOrder.

(** X1. The order in which the promotion loop takes the heading levels does
    not matter: looping over any rearrangement of [promote_these] leaves the
    same document. *)
Theorem promote_order_irrelevant (order : list string) (soup : BeautifulSoup) :
  order ≡ₚ promote_these ->
  foldl promote_one soup order = promote soup.
Proof.
  intros Hperm. unfold promote. rewrite !foldl_promote_one.
  apply map_ext. intros e. apply retag_ext. intros n.
  assert (bool_decide (n ∈ order) = bool_decide (n ∈ promote_these)) as ->; [|done].
  apply bool_decide_ext. by rewrite Hperm.
Qed.

Lemma promote_order_irrelevant_witness :
  foldl promote_one Examples.intro_setup ["h5"; "h4"; "h3"; "h2"]
  = promote Examples.intro_setup.
Proof.
  apply (promote_order_irrelevant (reverse promote_these) Examples.intro_setup).
  apply reverse_Permutation.
Defined.

(** X2. Promoting twice is promoting once: a document whose headings are
    normalised is left as it is. *)
Theorem promote_idempotent (soup : BeautifulSoup) : promote (promote soup) = promote soup.
Proof.
  rewrite !promote_retag, map_map. apply map_ext. intros e.
  rewrite retag_compose. apply retag_ext, promote_name_idempotent.
Qed.

(** X3. The headings [main] iterates over are the elements that were a
    heading of one of the first five levels in the input, at their positions
    in document order; each has the attributes, the [.string] and the text
    it had in the input.  An "h6", or any other element, is never one. *)
Theorem headings_of_input (soup : BeautifulSoup) (r : ref) (e : PageElement) :
  (r, e) ∈ the_h1s soup
  <-> exists n a cs,
        descendants soup !! r = Some (Tag n a cs)
        /\ n ∈ ["h1"; "h2"; "h3"; "h4"; "h5"]
        /\ e = Tag "h1" a (map (retag promote_name) cs)
        /\ string_of e = string_of (Tag n a cs)
        /\ get_text e = get_text (Tag n a cs).
Proof.
  unfold the_h1s. rewrite elem_of_find_all, promote_retag, descendants_retag.
  change (map ?f ?l) with (f <$> l) at 1. rewrite list_lookup_fmap.
  assert (forall n, n ∈ ["h1"; "h2"; "h3"; "h4"; "h5"] <-> promote_name n = "h1") as Hn.
  { intros n. rewrite <- promote_name_h1, elem_of_cons. unfold promote_these. tauto. }
  split.
  - intros [Hr He]. apply fmap_Some in Hr as (e0 & Hd & ->).
    destruct e0 as [n a cs | cls s]; [|done].
    simpl in He. injection He as Hp.
    exists n, a, cs. split; [done|]. split; [by apply Hn|].
    split; [simpl; by rewrite Hp|].
    split; [apply (string_of_retag promote_name (Tag n a cs))|].
    apply (get_text_retag promote_name (Tag n a cs)).
  - intros (n & a & cs & Hd & Hin & -> & _). apply Hn in Hin.
    split; [|done]. apply fmap_Some. exists (Tag n a cs). split; [done|].
    simpl. by rewrite Hin.
Qed.

(** ** How a run ends *)



(** ** The report *)

Section Report.
Variable slugify : string -> string.

Lemma paragraphs_flat_map_concat {A} (f : A -> list PageElement) (l : list A) :
  paragraphs (flat_map f l) = concat ((fun x => paragraphs (f x)) <$> l).
Proof.
  induction l as [|x l IH]; simpl; [done|]. by rewrite paragraphs_app, IH.
Qed.

(** The bodies of the topics of a run are the rebuilt paragraphs of the
    spans of the accepted headings. *)
Lemma main_bodies soup r :
  main slugify soup = Py.Returned r ->
  body <$> chopped_list r
  = (fun h : handle => paragraphs (span (promote soup) h.1))
      <$> filter (accepted slugify (doc_title r)) (the_h1s soup).
Proof.
  intros Hmain.
  destruct (main_inv slugify soup r Hmain) as (_ & _ & _ & Hhs & _ & Htopics & _).
  rewrite <- Hhs. rewrite <- list_fmap_compose.
  apply Forall_fmap_ext. eapply Forall_impl; [exact Htopics|].
  intros c (s & _ & _ & _ & Hshape). simpl. by apply body_of_shape.
Qed.

Lemma foldl_tally_valid l : forall st key,
  tally (valid_tag_dict (foldl tally_element st l)) key
  = tally (valid_tag_dict st) key
    + (if decide (key = Some "p") then length (paragraphs l) else 0)
    + count_named key (contributions l).
Proof.
  unfold contributions, count_named.
  induction l as [|e l IH]; intros st key; simpl.
  { unfold paragraphs. simpl. case_decide; lia. }
  rewrite IH. clear IH.
  assert (length (paragraphs (e :: l))
          = (if decide (name e = Some "p") then 1 else 0) + length (paragraphs l)) as ->.
  { change (e :: l) with ([e] ++ l). by rewrite paragraphs_app, length_app, length_paragraphs_one. }
  rewrite (filter_cons _ e l). unfold tally_element.
  destruct (decide (name e = Some "p")) as [Hp|Hp]; simpl.
  - rewrite tally_foldl_count, tally_count_this_tag, Hp.
    rewrite filter_app, length_app. unfold count_named.
    destruct (decide (key = Some "p")); lia.
  - destruct (decide (key = Some "p")); lia.
Qed.

Lemma foldl_tally_invalid_keys l : forall st key,
  is_Some (invalid_tag_dict (foldl tally_element st l) !! key) ->
  is_Some (invalid_tag_dict st !! key)
  \/ (key <> Some "p" /\ exists e, e ∈ l /\ name e = key).
Proof.
  induction l as [|e l IH]; intros st key; simpl; [auto|].
  intros [Hst | (Hp & e' & He' & Hn)]%IH.
  - unfold tally_element in Hst.
    destruct (decide (name e = Some "p")) as [Hp|Hp]; simpl in Hst; [auto|].
    destruct (decide (key = name e)) as [->|Hne].
    + right. split; [done|]. exists e. split; [apply elem_of_cons; auto | done].
    + rewrite lookup_count_this_tag_ne in Hst by done. auto.
  - right. split; [done|]. exists e'. split; [apply elem_of_cons; auto | done].
Qed.

End Report.

(** X6. The counts of a run fit the topics it made.  The statistics are those
    of the walked elements (the spans of the accepted headings, one after the
    other); the total is the number of walked elements and is the sum of the
    parsed and the invalid count; the parsed count is the number of
    paragraphs in the bodies of all topics, which together hold exactly the
    paragraphs rebuilt from the walked "p" elements; and the invalid count is
    the sum of the counts of the rejected tally. *)
Theorem run_counts (slugify : string -> string) (soup : BeautifulSoup) (r : run) :
  main slugify soup = Py.Returned r ->
  let elements := walked slugify soup (doc_title r) in
  the_stats r = foldl tally_element the_stats_initial elements
  /\ element_count (the_stats r) = length elements
  /\ element_count (the_stats r)
     = parsed_tag_count (the_stats r) + invalid_tag_count (the_stats r)
  /\ concat (body <$> chopped_list r) = paragraphs elements
  /\ parsed_tag_count (the_stats r) = length (concat (body <$> chopped_list r))
  /\ invalid_tag_count (the_stats r) = total (invalid_tag_dict (the_stats r)).
Proof.
  intros Hmain elements.
  pose proof (main_stats slugify soup r Hmain) as Hstats. fold elements in Hstats.
  destruct (foldl_tally_counts elements the_stats_initial) as (He & Hp & Hi).
  destruct (foldl_tally_invalid elements the_stats_initial None) as (Ht & _).
  rewrite <- Hstats in He, Hp, Hi, Ht. simpl in He, Hp, Hi, Ht.
  assert (concat (body <$> chopped_list r) = paragraphs elements) as Hbodies.
  { rewrite (main_bodies slugify soup r Hmain). unfold elements, walked.
    by rewrite paragraphs_flat_map_concat. }
  assert (length (paragraphs elements) <= length elements) as Hle.
  { unfold paragraphs. rewrite length_fmap. apply length_filter. }
  change (total ∅) with 0 in Ht.
  split; [done|]. split; [lia|]. split; [lia|]. split; [done|].
  split; [rewrite Hbodies; lia | lia].
Qed.

Lemma run_counts_witness :
  exists r,
    main Slug.slugify MoreExamples.guide = Py.Returned r
    /\ length (chopped_list r) = 2
    /\ element_count (the_stats r) = 7
    /\ parsed_tag_count (the_stats r) = 3
    /\ invalid_tag_count (the_stats r) = 4
    /\ total (invalid_tag_dict (the_stats r)) = 4
    /\ concat (body <$> chopped_list r)
       = [Tag "p" [] [Str NavigableString "Run setup"];
          Tag "p" [] [Str NavigableString "One"];
          Tag "p" [] [Str NavigableString "Go."]].
Proof.
  assert (exists r, main Slug.slugify MoreExamples.guide = Py.Returned r
                    /\ length (chopped_list r) = 2
                    /\ length (walked Slug.slugify MoreExamples.guide (doc_title r)) = 7
                    /\ paragraphs (walked Slug.slugify MoreExamples.guide (doc_title r))
                       = [Tag "p" [] [Str NavigableString "Run setup"];
                          Tag "p" [] [Str NavigableString "One"];
                          Tag "p" [] [Str NavigableString "Go."]])
    as (r & Hmain & Htopics & Hwalked & Hparagraphs).
  { eexists. vm_compute. repeat split. }
  destruct (run_counts Slug.slugify MoreExamples.guide r Hmain)
    as (_ & Hcount & Hsum & Hbodies & Hparsed & Htotal).
  rewrite Hwalked in Hcount. rewrite Hparagraphs in Hbodies.
  rewrite Hbodies in Hparsed. simpl in Hparsed.
  exists r. split; [exact Hmain|]. split; [exact Htopics|]. split; [exact Hcount|].
  split; [exact Hparsed|].
  assert (invalid_tag_count (the_stats r) = 4) as Hinvalid by lia.
  split; [exact Hinvalid|]. split; [lia | exact Hbodies].
Defined.

(** X7. The rejected tally of a run counts, under each tag name other than
    "p", the walked elements of that name, and it has no entry for "p", for
    a heading of the first five levels, or for the name [None] of a string
    node: paragraphs are never rejected, headings end a span and are never
    handed over, and string nodes are skipped. *)
Theorem rejected_tally_of_run (slugify : string -> string) (soup : BeautifulSoup) (r : run) :
  main slugify soup = Py.Returned r ->
  (forall key,
      tally (invalid_tag_dict (the_stats r)) key
      = if decide (key = Some "p") then 0
        else count_named key (walked slugify soup (doc_title r)))
  /\ (forall key, is_Some (invalid_tag_dict (the_stats r) !! key) ->
        exists n, key = Some n /\ n ∉ ["p"; "h1"; "h2"; "h3"; "h4"; "h5"]).
Proof.
  intros Hmain. rewrite (main_stats slugify soup r Hmain). split.
  - intros key.
    destruct (foldl_tally_invalid (walked slugify soup (doc_title r)) the_stats_initial key)
      as (_ & ->).
    done.
  - intros key [Hinit | (Hp & e & He & Hn)]%foldl_tally_invalid_keys.
    { simpl in Hinit. rewrite lookup_empty in Hinit. by destruct Hinit. }
    apply elem_of_walked in He as (n & Hname & Hh1 & Hsub).
    exists n. split; [congruence|].
    rewrite elem_of_cons. intros [-> | Hin]; [congruence|].
    apply elem_of_cons in Hin as [-> | Hin]; done.
Qed.

Lemma rejected_tally_of_run_witness :
  exists r,
    main Slug.slugify Examples.intro_setup = Py.Returned r
    /\ forall key, tally (invalid_tag_dict (the_stats r)) key = 0.
Proof.
  assert (exists r, main Slug.slugify Examples.intro_setup = Py.Returned r
                    /\ walked Slug.slugify Examples.intro_setup (doc_title r)
                       = [Tag "p" [] [Str NavigableString "Step one."]])
    as (r & Hmain & Hwalked).
  { eexists. vm_compute. split; reflexivity. }
  destruct (rejected_tally_of_run Slug.slugify Examples.intro_setup r Hmain) as [Htally _].
  exists r. split; [exact Hmain|]. intros key. rewrite Htally, Hwalked.
  unfold count_named. rewrite filter_cons.
  destruct (decide (key = Some "p")) as [->|Hkey]; [reflexivity|].
  rewrite decide_False; [reflexivity|]. simpl. congruence.
Defined.

(** X8. The accepted tally of a run counts, under each name, the children of
    the walked paragraphs that have a [.string], and under "p" the walked
    paragraphs as well; a text that is a child of a paragraph is counted
    under the name [None]. *)
Theorem accepted_tally_of_run (slugify : string -> string) (soup : BeautifulSoup) (r : run)
    (key : option string) :
  main slugify soup = Py.Returned r ->
  tally (valid_tag_dict (the_stats r)) key
  = (if decide (key = Some "p") then parsed_tag_count (the_stats r) else 0)
    + count_named key (contributions (walked slugify soup (doc_title r))).
Proof.
  intros Hmain. rewrite (main_stats slugify soup r Hmain).
  rewrite foldl_tally_valid.
  destruct (foldl_tally_counts (walked slugify soup (doc_title r)) the_stats_initial)
    as (_ & -> & _).
  simpl. unfold tally. rewrite lookup_empty. simpl. done.
Qed.

Lemma accepted_tally_of_run_witness :
  exists r,
    main Slug.slugify Examples.intro_setup = Py.Returned r
    /\ tally (valid_tag_dict (the_stats r)) (Some "p") = 1
    /\ tally (valid_tag_dict (the_stats r)) None = 1.
Proof.
  assert (exists r, main Slug.slugify Examples.intro_setup = Py.Returned r
                    /\ walked Slug.slugify Examples.intro_setup (doc_title r)
                       = [Tag "p" [] [Str NavigableString "Step one."]]
                    /\ parsed_tag_count (the_stats r) = 1)
    as (r & Hmain & Hwalked & Hparsed).
  { eexists. vm_compute. repeat split. }
  exists r. split; [exact Hmain|].
  rewrite !(accepted_tally_of_run Slug.slugify Examples.intro_setup r _ Hmain).
  rewrite Hwalked, Hparsed. split; reflexivity.
Defined.

(** ** The files of a run *)

Section Files.

Lemma string_app_inj_r (s1 s2 x : string) : s1 +:+ x = s2 +:+ x -> s1 = s2.
Proof.
  revert s2. induction s1 as [|c1 s1 IH]; intros [|c2 s2] Heq; [done| | |].
  - apply (f_equal String.length) in Heq.
    change (String c2 s2 +:+ x) with (String c2 (s2 +:+ x)) in Heq.
    change ("" +:+ x) with x in Heq. simpl in Heq.
    rewrite string_length_app in Heq. lia.
  - apply (f_equal String.length) in Heq.
    change (String c1 s1 +:+ x) with (String c1 (s1 +:+ x)) in Heq.
    change ("" +:+ x) with x in Heq. simpl in Heq.
    rewrite string_length_app in Heq. lia.
  - change (String c1 (s1 +:+ x) = String c2 (s2 +:+ x)) in Heq.
    injection Heq as -> Heq. f_equal. by apply IH.
Qed.

Lemma write_files_app l1 l2 folder :
  write_files (l1 ++ l2) folder = write_files l2 (write_files l1 folder).
Proof. unfold write_files. by rewrite foldl_app. Qed.

Lemma write_files_lookup_other l : forall folder file,
  file ∉ l.*1 -> write_files l folder !! file = folder !! file.
Proof.
  induction l as [|[n t] l IH]; intros folder file; [done|].
  rewrite fmap_cons, not_elem_of_cons. intros [Hne Hin].
  change (write_files ((n, t) :: l) folder) with (write_files l (<[n := t]> folder)).
  rewrite IH by done. by rewrite lookup_insert_ne.
Qed.

(** A file holds what was written to it last. *)
Lemma write_files_lookup_last l1 file tree l2 folder :
  file ∉ l2.*1 ->
  write_files (l1 ++ (file, tree) :: l2) folder !! file = Some tree.
Proof.
  intros Hin. rewrite write_files_app.
  change (write_files ((file, tree) :: l2) ?f) with (write_files l2 (<[file := tree]> f)).
  rewrite write_files_lookup_other by done. apply lookup_insert_eq.
Qed.

Lemma write_files_dom l : forall folder file,
  is_Some (write_files l folder !! file) <-> file ∈ l.*1 \/ is_Some (folder !! file).
Proof.
  induction l as [|[n t] l IH]; intros folder file.
  { simpl. rewrite elem_of_nil. tauto. }
  change (write_files ((n, t) :: l) folder) with (write_files l (<[n := t]> folder)).
  rewrite IH, fmap_cons, elem_of_cons. simpl.
  destruct (decide (n = file)) as [->|Hne].
  - rewrite lookup_insert_eq. split; [auto|]. intros _. right. eauto.
  - rewrite lookup_insert_ne by done. split; [tauto|].
    intros [[Heq|?]|?]; [congruence | auto..].
Qed.

Lemma write_files_size l : forall folder,
  size (write_files l folder) <= size folder + length l.
Proof.
  induction l as [|[n t] l IH]; intros folder; [simpl; lia|].
  change (write_files ((n, t) :: l) folder) with (write_files l (<[n := t]> folder)).
  etrans; [apply IH|]. simpl. rewrite map_size_insert.
  destruct (folder !! n); simpl; lia.
Qed.

End Files.

(** X9. The output folder after a run, when it was empty before: its files
    are named after the slugs of the topics, with ".xml" appended, each
    holds the tree of the last topic of that slug, and there are at most as
    many files as topics.  So of two topics with the same slug the later one
    overwrites the file of the earlier one. *)
Theorem files_of_run (slugify : string -> string) (soup : BeautifulSoup) (r : run) :
  main slugify soup = Py.Returned r ->
  let folder := write_files (written r) ∅ in
  (forall before c after,
      chopped_list r = before ++ c :: after ->
      Forall (fun c' => ChoppedH1.slug c' <> ChoppedH1.slug c) after ->
      folder !! (ChoppedH1.slug c +:+ EXTN_XML) = Some (ChoppedH1.soup c))
  /\ (forall file, is_Some (folder !! file)
        <-> exists c, c ∈ chopped_list r /\ file = ChoppedH1.slug c +:+ EXTN_XML)
  /\ size folder <= length (chopped_list r).
Proof.
  intros Hmain folder.
  destruct (main_inv slugify soup r Hmain) as (_ & _ & _ & _ & _ & _ & Hwritten).
  unfold folder. rewrite Hwritten. split; [|split].
  - intros before c after -> Hafter. rewrite fmap_app, fmap_cons.
    apply (write_files_lookup_last _ (ChoppedH1.slug c +:+ EXTN_XML) (ChoppedH1.soup c)).
    rewrite <- list_fmap_compose. intros (c' & Heq & Hc')%list_elem_of_fmap.
    rewrite Forall_forall in Hafter. apply (Hafter c' Hc').
    simpl in Heq. symmetry. by eapply string_app_inj_r.
  - intros file. rewrite write_files_dom, lookup_empty, <- list_fmap_compose.
    rewrite list_elem_of_fmap. split.
    + intros [(c & -> & Hc) | [? ?]]; [eauto | done].
    + intros (c & Hc & ->). left. eauto.
  - etrans; [apply write_files_size|]. rewrite map_size_empty, length_fmap. done.
Qed.

Lemma files_of_run_witness :
  exists r,
    main Slug.slugify Examples.intro_setup = Py.Returned r
    /\ size (write_files (written r) ∅) <= 1
    /\ forall file, is_Some (write_files (written r) ∅ !! file) <-> file = "setup.xml".
Proof.
  assert (exists r c, main Slug.slugify Examples.intro_setup = Py.Returned r
                      /\ chopped_list r = [c]
                      /\ ChoppedH1.slug c = "setup")
    as (r & c & Hmain & Hlist & Hslug).
  { eexists _, _. vm_compute. repeat split. }
  destruct (files_of_run Slug.slugify Examples.intro_setup r Hmain) as (_ & Hdom & Hsize).
  exists r. split; [exact Hmain|]. rewrite Hlist in Hsize, Hdom. split; [exact Hsize|].
  intros file. rewrite Hdom. split.
  - intros (c' & ->%list_elem_of_singleton & ->). rewrite Hslug. reflexivity.
  - intros ->. exists c. split; [apply list_elem_of_singleton; reflexivity|].
    rewrite Hslug. reflexivity.
Defined.

(** X10. Counting a tag in a dictionary that keeps its insertion order: the
    counts are those of [_count_this_tag] on the tally; a name that was not
    there (the [KeyError] case) starts at 1 and goes to the end, a name that
    was there grows by one and keeps its place; no name is listed twice. *)
Theorem ordered_count_this_tag (d : Ordered.dict) (e : PageElement) :
  NoDup d.*1 ->
  (list_to_map (Ordered._count_this_tag d e) : tag_dict)
  = ChoppedH1._count_this_tag (list_to_map d) e
  /\ Ordered.get (Ordered._count_this_tag d e) (name e)
     = Some (default 0 (Ordered.get d (name e)) + 1)
  /\ (Ordered._count_this_tag d e).*1
     = (if decide (name e ∈ d.*1) then d.*1 else d.*1 ++ [name e])
  /\ NoDup (Ordered._count_this_tag d e).*1.
Proof.
  intros Hd. unfold Ordered._count_this_tag, ChoppedH1._count_this_tag.
  rewrite <- ordered_get_lookup.
  destruct (Ordered.get d (name e)) as [n|] eqn:Hget; simpl.
  - split; [apply ordered_set_map|]. split.
    { by rewrite ordered_get_lookup, ordered_set_map, lookup_insert_eq. }
    split; [apply ordered_set_keys | by apply ordered_set_NoDup].
  - split; [apply ordered_set_map|]. split.
    { by rewrite ordered_get_lookup, ordered_set_map, lookup_insert_eq. }
    split; [apply ordered_set_keys | by apply ordered_set_NoDup].
Qed.

Lemma ordered_count_this_tag_witness :
  Ordered._count_this_tag [(Some "p", 2); (None, 3)] (Tag "b" [] [])
  = [(Some "p", 2); (None, 3); (Some "b", 1)]
  /\ Ordered._count_this_tag [(Some "p", 2); (None, 3)] (Str NavigableString "x")
     = [(Some "p", 2); (None, 4)]
  /\ NoDup (Ordered._count_this_tag [(Some "p", 2); (None, 3)] (Tag "b" [] [])).*1.
Proof.
  split; [reflexivity|]. split; [reflexivity|].
  apply (ordered_count_this_tag [(Some "p", 2); (None, 3)] (Tag "b" [] [])).
  apply (bool_decide_unpack _). vm_compute. exact I.
Defined.

(** X11. [_order_tags_dict] lists the items of a dictionary by descending
    count, items with the same count in the order they had; it neither
    drops nor adds nor changes an item. *)
Theorem order_tags_dict_spec (d : Ordered.dict) :
  NoDup d.*1 ->
  Ordered._order_tags_dict d ≡ₚ d
  /\ StronglySorted (fun a b : option string * nat => b.2 <= a.2) (Ordered._order_tags_dict d)
  /\ (forall v : nat,
        filter (fun y : option string * nat => y.2 = v) (Ordered._order_tags_dict d)
        = filter (fun y : option string * nat => y.2 = v) d)
  /\ (list_to_map (Ordered._order_tags_dict d) : tag_dict) = list_to_map d.
Proof.
  intros Hd. rewrite order_tags_dict_sorted by done.
  split; [apply sorted_by_count_perm|]. split; [apply sorted_by_count_sorted|].
  split; [intros v; apply sorted_by_count_stable|].
  symmetry. apply list_to_map_proper; [done|]. symmetry. apply sorted_by_count_perm.
Qed.

Lemma order_tags_dict_spec_witness :
  Ordered._order_tags_dict [(Some "b", 1); (Some "p", 4); (None, 4); (Some "i", 1); (Some "a", 7)]
  = [(Some "a", 7); (Some "p", 4); (None, 4); (Some "b", 1); (Some "i", 1)]
  /\ Ordered._order_tags_dict
       [(Some "b", 1); (Some "p", 4); (None, 4); (Some "i", 1); (Some "a", 7)]
     ≡ₚ [(Some "b", 1); (Some "p", 4); (None, 4); (Some "i", 1); (Some "a", 7)].
Proof.
  split; [reflexivity|].
  apply (order_tags_dict_spec
           [(Some "b", 1); (Some "p", 4); (None, 4); (Some "i", 1); (Some "a", 7)]).
  apply (bool_decide_unpack _). vm_compute. exact I.
Defined.

(** X12. A run makes fewer topics than the document has headings: the
    heading that gives the document title is never a topic itself (for a
    slugify that does not tell text from its trimmed form, as in C3). *)
Theorem fewer_topics_than_headings (slugify : string -> string) (soup : BeautifulSoup)
    (r : run) :
  (forall s, slugify (Py.strip s) = slugify s) ->
  main slugify soup = Py.Returned r ->
  length (chopped_list r) < length (the_h1s soup).
Proof.
  intros Hstrip Hmain.
  destruct (main_inv slugify soup r Hmain) as (first & Hfirst & Htitle & Hhs & _).
  apply head_omap_split in Hfirst as (before & h & after & Hsplit & _ & Hh).
  apply title_text_Some in Hh as (s & Hs & Hsp & ->).
  assert (accepted slugify (doc_title r) h = false) as Hrej.
  { unfold accepted. rewrite Hs, Hsp, Htitle, Hstrip. simpl.
    by rewrite bool_decide_eq_true_2. }
  rewrite <- (length_fmap ChoppedH1.h1_tag), Hhs, Hsplit.
  rewrite filter_app, filter_cons, Hrej, !length_app. simpl.
  pose proof (length_filter (accepted slugify (doc_title r)) before).
  pose proof (length_filter (accepted slugify (doc_title r)) after).
  lia.
Qed.

Lemma fewer_topics_than_headings_witness :
  exists r,
    main Slug.slugify Examples.intro_setup = Py.Returned r
    /\ length (chopped_list r) < length (the_h1s Examples.intro_setup).
Proof.
  assert (exists r, main Slug.slugify Examples.intro_setup = Py.Returned r) as [r Hmain].
  { eexists. vm_compute. reflexivity. }
  exists r. split; [exact Hmain|].
  apply (fewer_topics_than_headings Slug.slugify Examples.intro_setup r slugify_strip Hmain).
Defined.

(** C2, as it was worded, fails. In this paragraph the element with mixed
    content has text directly in it and adds nothing, while the element
    whose text lies one level deeper and the comment each add an entry: the
    rebuilt text is "Hello x note", where the texts of the children that
    carry direct text give "Hello a". *)
Lemma paragraph_rebuilt_counterexample :
  exists stats' self',
    ChoppedH1.add_this_element the_stats_initial Examples.setup_topic
      MoreExamples.nested_paragraph = Py.Returned (stats', self')
    /\ body self' = [Tag "p" [] [Str NavigableString "Hello x note"]]
    /\ Py.join " " (direct_child_texts (children MoreExamples.nested_paragraph)) = "Hello a"
    /\ body self'
       <> [Tag "p" []
             [Str NavigableString
                (Py.join " " (direct_child_texts (children MoreExamples.nested_paragraph)))]]
    /\ contributing (children MoreExamples.nested_paragraph)
       <> filter carries_direct_text (children MoreExamples.nested_paragraph).
Proof.
  eexists _, _. split; [reflexivity|]. split; [reflexivity|]. split; [reflexivity|].
  split; discriminate.
Qed.

(** ** The run with the file system *)

Section OnDisk.
Variable slugify : string -> string.
Variable fs : file_system.



End OnDisk.


(** On a file system that refuses names of more than eight characters the
    run over the guide builds its topics and then fails on the first file. *)
Example run_on_disk_refused :
  main_on_disk Slug.slugify MoreExamples.short_names MoreExamples.guide
  = Py.Raised Py.OSError
  /\ exists r files,
       main_on_disk Slug.slugify MoreExamples.willing MoreExamples.guide
       = Py.Returned (r, files)
       /\ size files = 2.
Proof.
  split; [reflexivity|]. eexists _, _. split; [vm_compute; reflexivity|].
  vm_compute. reflexivity.
Qed.
